(** * wiki-image-scrape: a shallow embedding of [scrape_image.py]

  The script resolves a search term to the URL of an image of the matching
  Wikipedia article.  It has three functions ([get_wiki_page_id],
  [get_wiki_image_url], [viewable_image]) and a [main].  This file embeds
  them, together with the fragments of Python they rest on: the [re]
  module's [search] for the patterns the script uses, subscripting of
  decoded JSON values, BeautifulSoup's [find] / [find_all] on a parsed
  tree, and uncaught exceptions.

  Strings are [string]s of 8-bit characters.  The script's patterns only
  mention ASCII letters.  [str.lower] maps no non-ASCII character to a line
  feed, and the two it maps to text with an ASCII letter (U+0130 to [i]
  followed by a combining dot, U+212A to [k]) cannot complete any word of
  the patterns, so characters above 127 are kept as opaque characters that
  [lower] leaves alone. *)

From Stdlib Require Import String Ascii ZArith Bool List Lia DecimalString.
From stdpp Require Import base option list gmap strings.

Local Open Scope Z_scope.
Local Open Scope bool_scope.

(** ** Python strings *)

Module PyStr.

(** The line feed, the only character [.] refuses and the only one [$]
    steps over. *)
Definition LF : ascii := Ascii.ascii_of_nat 10.

(** [str.lower] on one character: ['A'..'Z'] go to ['a'..'z']. *)
Definition lower_char (c : ascii) : ascii :=
  let n := Ascii.nat_of_ascii c in
  if (Nat.leb 65 n && Nat.leb n 90)%bool
  then Ascii.ascii_of_nat (n + 32) else c.

(** [s.lower()] *)
Fixpoint lower (s : string) : string :=
  match s with
  | EmptyString => EmptyString
  | String c s' => String (lower_char c) (lower s')
  end.

(** [sep.join(l)] *)
Fixpoint join (sep : string) (l : list string) : string :=
  match l with
  | [] => EmptyString
  | [x] => x
  | x :: l' => x +:+ sep +:+ join sep l'
  end.

(** Declarative vocabulary for the statements below. *)
Definition ends_with (suffix s : string) : Prop :=
  exists pre, s = pre +:+ suffix.

Definition contains (sub s : string) : Prop :=
  exists pre post, s = pre +:+ sub +:+ post.

Fixpoint has_char (c : ascii) (s : string) : Prop :=
  match s with
  | EmptyString => False
  | String c' s' => c' = c \/ has_char c s'
  end.

(** [s] without its final line feed, when it has one: the part of the
    subject that lies before the place where [$] matches. *)
Fixpoint chomp (s : string) : string :=
  match s with
  | EmptyString => EmptyString
  | String c s' =>
      match s' with
      | EmptyString => if Ascii.ascii_dec c LF then EmptyString else s
      | String _ _ => String c (chomp s')
      end
  end.

End PyStr.

(** ** The fragment of Python's [re] the script uses

  The two patterns of [viewable_image] and the one of [get_wiki_image_url]
  are built from literals, [.], [^], [$], alternation, grouping, [*] and a
  negative lookahead, without flags.  [re] is a backtracking matcher; since
  the script only tests whether [re.search] found a match, the embedding
  returns that truth value. *)

Module Re.
Import PyStr.

Inductive regex : Type :=
| Chr (c : ascii)          (* a literal character *)
| Dot                      (* [.]: any character but a line feed *)
| Bol                      (* [^]: the start of the string *)
| Eol                      (* [$]: the end, or just before a final line feed *)
| Eps                      (* the empty pattern *)
| Seq (r1 r2 : regex)      (* [r1 r2] *)
| Alt (r1 r2 : regex)      (* [r1|r2] *)
| Star (r : regex)         (* [r*] *)
| NotAhead (r : regex).    (* [(?!r)] *)

(** A literal word. *)
Fixpoint Lit (w : string) : regex :=
  match w with
  | EmptyString => Eps
  | String c w' => Seq (Chr c) (Lit w')
  end.

(** [$] without [re.MULTILINE]: at the end of the string, or before a line
    feed that is the last character. *)
Definition at_end (s : string) : bool :=
  match s with
  | EmptyString => true
  | String c EmptyString => if Ascii.ascii_dec c LF then true else false
  | _ => false
  end.

(** The loop of [r*], for a body matcher [body]: greedy, and, as in [re], an
    iteration that consumes nothing ends the loop, so the length of the
    subject bounds the number of iterations. *)
Fixpoint star_loop (body : bool -> string -> (bool -> string -> bool) -> bool)
    (k : bool -> string -> bool) (fuel : nat) (b : bool) (s : string) : bool :=
  match fuel with
  | O => k b s
  | S fuel' =>
      body b s
        (fun b' s' =>
           if Nat.ltb (String.length s') (String.length s)
           then star_loop body k fuel' b' s' else false)
      || k b s
  end.

(** [matches r bos s k]: [r] matches at the current position, where [s] is
    what is left of the subject and [bos] says whether the position is the
    start of the subject, and the continuation [k] accepts what follows. *)
Fixpoint matches (r : regex) (bos : bool) (s : string)
    (k : bool -> string -> bool) {struct r} : bool :=
  match r with
  | Chr c =>
      match s with
      | String c' s' => if Ascii.ascii_dec c' c then k false s' else false
      | EmptyString => false
      end
  | Dot =>
      match s with
      | String c' s' => if Ascii.ascii_dec c' LF then false else k false s'
      | EmptyString => false
      end
  | Bol => if bos then k bos s else false
  | Eol => if at_end s then k bos s else false
  | Eps => k bos s
  | Seq r1 r2 => matches r1 bos s (fun b' s' => matches r2 b' s' k)
  | Alt r1 r2 => matches r1 bos s k || matches r2 bos s k
  | Star r' => star_loop (matches r') k (String.length s) bos s
  | NotAhead r' =>
      if matches r' bos s (fun _ _ => true) then false else k bos s
  end.

(** [re.search(r, s)] tries every start position from the left; the result
    is whether a match object (truthy) or [None] comes back. *)
Fixpoint search_from (r : regex) (bos : bool) (s : string) : bool :=
  matches r bos s (fun _ _ => true)
  || match s with
     | EmptyString => false
     | String _ s' => search_from r false s'
     end.

Definition search (r : regex) (s : string) : bool := search_from r true s.

End Re.

Import PyStr Re.

(** ** Python values, exceptions and the script's effects *)

Module Py.

(** What a subscript can be: a string key or an integer index. *)
Inductive key : Type :=
| KStr (s : string)
| KInt (i : Z).

(** The exceptions the script can end with.  It defines none of its own and
    catches none: the built-in ones come from subscripting and attribute
    access, [Other] stands for what [requests] raises (by class name). *)
Inductive exn : Type :=
| KeyError (k : key)
| IndexError
| TypeError
| AttributeError
| Other (cls : string).

(** The name of the exception's class. *)
Definition exn_name (e : exn) : string :=
  match e with
  | KeyError _ => "KeyError"
  | IndexError => "IndexError"
  | TypeError => "TypeError"
  | AttributeError => "AttributeError"
  | Other cls => cls
  end.

(** A computation returns a value or raises. *)
Inductive result (A : Type) : Type :=
| Ok (a : A)
| Raise (e : exn).
Arguments Ok {A} a.
Arguments Raise {A} e.

Definition rbind {A B} (m : result A) (f : A -> result B) : result B :=
  match m with
  | Ok a => f a
  | Raise e => Raise e
  end.

(** What a run leaves behind: the requests it sent, the lines it printed,
    and (as a marker) each start of the whole-page scan
    [find_all(viewable_image)]. *)
Inductive event : Type :=
| HttpGet (url : string) (params : list (string * string))
| Scan
| Print (line : string).

(** An effectful computation: the events so far and how it ended. *)
Definition io (A : Type) : Type := (list event * result A)%type.

Definition ret {A} (a : A) : io A := ([], Ok a).

Definition lift {A} (r : result A) : io A := ([], r).

Definition emit (e : event) : io unit := ([e], Ok tt).

Definition bind {A B} (m : io A) (f : A -> io B) : io B :=
  match m with
  | (tr, Ok a) => let (tr', r) := f a in (tr ++ tr', r)
  | (tr, Raise e) => (tr, Raise e)
  end.

(** The computation ends with an uncaught exception of class [cls]. *)
Definition fails_with {A} (m : io A) (cls : string) : Prop :=
  exists e, snd m = Raise e /\ exn_name e = cls.

(** Decoded JSON, as [Response.json()] returns it (numbers are integers:
    the script reads a page id). *)
#[warnings="-register-all"]
Inductive JSON : Type :=
| JNone
| JBool (b : bool)
| JInt (i : Z)
| JStr (s : string)
| JList (l : list JSON)
| JDict (d : gmap string JSON).

(** [v[k]] for a string key: only a dict can be subscripted by one. *)
Definition getitem (v : JSON) (k : string) : result JSON :=
  match v with
  | JDict d =>
      match d !! k with
      | Some x => Ok x
      | None => Raise (KeyError (KStr k))
      end
  | _ => Raise TypeError
  end.

(** [v[0]]: the first element of a list or the first character of a string;
    a dict decoded from JSON has no integer key. *)
Definition getitem0 (v : JSON) : result JSON :=
  match v with
  | JList (x :: _) => Ok x
  | JList [] => Raise IndexError
  | JStr (String c _) => Ok (JStr (String c EmptyString))
  | JStr EmptyString => Raise IndexError
  | JDict _ => Raise (KeyError (KInt 0))
  | _ => Raise TypeError
  end.

(** [l[i]] on a list of strings such as [sys.argv], for [0 <= i]. *)
Definition list_getitem (l : list string) (i : nat) : result string :=
  match l !! i with
  | Some x => Ok x
  | None => Raise IndexError
  end.

End Py.

Import Py.

Declare Scope result_scope.
Delimit Scope result_scope with result.
Notation "x <- m ;; k" := (rbind m (fun x => k))
  (at level 100, m at next level, right associativity) : result_scope.

Declare Scope io_scope.
Delimit Scope io_scope with io.
Notation "x <- m ;; k" := (bind m (fun x => k))
  (at level 100, m at next level, right associativity) : io_scope.
Notation "m ;; k" := (bind m (fun _ => k))
  (at level 100, right associativity) : io_scope.

(** ** The parsed page: BeautifulSoup's tree *)

Module Soup.

(** A tag: its name, its attributes (a dict from attribute name to string),
    the value of its [class] attribute, which BeautifulSoup keeps apart as
    the list of the attribute's whitespace-separated tokens (empty when the
    attribute is absent), and its contents: tags and strings, in document
    order.  The parsed document itself is a tag named ["[document]"] without
    attributes. *)
#[warnings="-register-all"]
Inductive Tag : Type :=
| mkTag (name : string) (attrs : gmap string string) (class_ : list string)
    (contents : list (Tag + string)).

Definition name (t : Tag) : string :=
  match t with mkTag n _ _ _ => n end.

Definition attrs (t : Tag) : gmap string string :=
  match t with mkTag _ a _ _ => a end.

Definition class_ (t : Tag) : list string :=
  match t with mkTag _ _ c _ => c end.

Definition contents (t : Tag) : list (Tag + string) :=
  match t with mkTag _ _ _ c => c end.

(** A tag met while walking a tree, with the tag it is a child of. *)
Record Element : Type := mkElement { parent : Tag; tag : Tag }.

(** [t.descendants]: every tag below [t], in document order. *)
Fixpoint descendants (t : Tag) : list Element :=
  match t with
  | mkTag _ _ _ cs =>
      flat_map
        (fun c =>
           match c with
           | inl t' => mkElement t t' :: descendants t'
           | inr _ => []
           end) cs
  end.

(** [tag[k]]: the attribute's value, [KeyError] when the tag has none. *)
Definition tag_getitem (t : Tag) (k : string) : result string :=
  match attrs t !! k with
  | Some v => Ok v
  | None => Raise (KeyError (KStr k))
  end.

(** How [find] matches [{"class": c}]: some token of the tag's class
    attribute is [c], or the tokens joined by spaces are. *)
Definition has_class (c : string) (t : Tag) : bool :=
  existsb (String.eqb c) (class_ t) || String.eqb (PyStr.join " " (class_ t)) c.

(** [t.find(n)]: the first tag named [n] below [t], or [None]. *)
Definition find (n : string) (t : Tag) : option Element :=
  List.find (fun e => String.eqb (name (tag e)) n) (descendants t).

(** [t.find(n, {"class": c})] *)
Definition find_class (n c : string) (t : Tag) : option Element :=
  List.find (fun e => String.eqb (name (tag e)) n && has_class c (tag e))
    (descendants t).

(** The filter of [find_all]: the function is called on the tags in order
    and every call is made, so an exception of any call ends the scan. *)
Fixpoint filter_tags (f : Tag -> result bool) (l : list Element)
    : result (list Element) :=
  match l with
  | [] => Ok []
  | e :: l' =>
      (b <- f (tag e) ;;
       rest <- filter_tags f l' ;;
       Ok (if b then e :: rest else rest))%result
  end.

(** [t.find_all(f)] for a function [f]: the tags below [t] on which [f]
    returns a true value. *)
Definition find_all (f : Tag -> result bool) (t : Tag) : result (list Element) :=
  filter_tags f (descendants t).

(** A method call [o.m(...)] on what may be [None]. *)
Definition method {A B} (o : option A) (m : A -> B) : result B :=
  match o with
  | Some a => Ok (m a)
  | None => Raise AttributeError
  end.

(** A subscript [o[k]] on what may be [None]. *)
Definition subscript (o : option Element) (k : string) : result string :=
  match o with
  | Some e => tag_getitem (tag e) k
  | None => Raise TypeError
  end.

(** Declarative counterparts of the queries, for the statements below:
    the tag carries the class [c]; [e] is the first tag below [t], in
    document order, that satisfies [P]. *)
Definition classed (c : string) (t : Tag) : Prop :=
  In c (class_ t) \/ PyStr.join " " (class_ t) = c.

Definition first_tag (P : Tag -> Prop) (t : Tag) (e : Element) : Prop :=
  exists l1 l2,
    descendants t = l1 ++ e :: l2 /\ P (tag e) /\
    (forall e', In e' l1 -> ~ P (tag e')).

End Soup.

Import Soup.

(** ** The script *)

Module Script.

(** ["(jpg|jpeg|gif|png)$"] *)
Definition regex_viewable : regex :=
  Seq (Alt (Lit "jpg") (Alt (Lit "jpeg") (Alt (Lit "gif") (Lit "png")))) Eol.

(** The alternatives of [regex_viewable]. *)
Definition extensions : list string := ["jpg"; "jpeg"; "gif"; "png"].

(** ["^((?!svg).)*$"] *)
Definition regex_not_viewable : regex :=
  Seq Bol (Seq (Star (Seq (NotAhead (Lit "svg")) Dot)) Eol).

(** [a and b] on truth values: [b] is only evaluated when [a] is true. *)
Definition py_and (a b : result bool) : result bool :=
  (x <- a ;; if x then b else Ok false)%result.

(** [viewable_image(tag)], lines 89-106.  The value is the truth value of
    what the function returns ([False] and [None] are both [false]). *)
Definition viewable_image (tag : Tag) : result bool :=
  py_and (Ok (String.eqb (name tag) "img"))
  (py_and (src <- tag_getitem tag "src" ;;
           Ok (search regex_not_viewable (lower src)))%result
  (py_and (src <- tag_getitem tag "src" ;;
           Ok (search regex_viewable (lower src)))%result
          (alt <- tag_getitem tag "alt" ;;
           Ok (negb (String.eqb alt "dagger")))%result)).

(** The predicate as the specification words it: an image element whose
    lower-cased source path ends with one of the extensions and does not
    contain ["svg"], and whose alternate text is not ["dagger"]. *)
Definition viewable_as_specified (t : Tag) : Prop :=
  name t = "img" /\
  exists src alt,
    attrs t !! "src" = Some src /\ attrs t !! "alt" = Some alt /\
    (exists ext, In ext extensions /\ ends_with ext (lower src)) /\
    ~ contains "svg" (lower src) /\
    alt <> "dagger".

(** The condition the two patterns and the two comparisons of
    [viewable_image] add up to; it differs from the one above in that a
    final line feed of the source path is set aside, and that no other line
    feed is tolerated. *)
Definition viewable_exactly (t : Tag) : Prop :=
  name t = "img" /\
  exists src alt,
    attrs t !! "src" = Some src /\ attrs t !! "alt" = Some alt /\
    (exists ext, In ext extensions /\ ends_with ext (chomp (lower src))) /\
    ~ contains "svg" (chomp (lower src)) /\
    ~ has_char LF (chomp (lower src)) /\
    alt <> "dagger".

(** The page as the specification words it for the structured lookup:
    some infobox table of the page has some image cell that holds some link,
    whose target is [href]. *)
Definition infobox_image_link (page : Tag) (href : string) : Prop :=
  exists tbl cell a,
    In tbl (descendants page) /\
    name (tag tbl) = "table" /\ classed "infobox" (tag tbl) /\
    In cell (descendants (tag tbl)) /\
    name (tag cell) = "td" /\ classed "infobox-image" (tag cell) /\
    In a (descendants (tag cell)) /\
    name (tag a) = "a" /\ attrs (tag a) !! "href" = Some href.

Section Network.

(** The collaborators the script calls and does not define:
    [requests.get(url, params).content] (or the exception of the request),
    [Response.json()] on that content, the parser
    [BeautifulSoup(content, "html.parser")], and the built-in [str] on the
    value [get_wiki_page_id] returned. *)
Variable get : string -> list (string * string) -> result string.
Variable json : string -> result JSON.
Variable BeautifulSoup : string -> Tag.
Variable str : JSON -> string.

(** [get(url=..., params=...)]: the request is an event of the run. *)
Definition request (url : string) (params : list (string * string)) : io string :=
  (emit (HttpGet url params) ;; lift (get url params))%io.

(** [base_url] and [search_params] of [get_wiki_page_id]. *)
Definition api_url : string := "https://en.wikipedia.org/w/api.php".

Definition search_params (search_term : string) : list (string * string) :=
  [("action", "query"); ("list", "search");
   ("srsearch", search_term); ("format", "json")].

(** [get_wiki_page_id(search_term)], lines 17-44. *)
Definition get_wiki_page_id (search_term : string) : io JSON :=
  (search_response <- request api_url (search_params search_term) ;;
   response <- lift (json search_response) ;;
   lift (query <- getitem response "query" ;;
         results <- getitem query "search" ;;
         first <- getitem0 results ;;
         getitem first "pageid")%result)%io.

(** The Primary Image Locator: lines 67-75 of [get_wiki_image_url], from
    the parsed article page to the reference of the image's page. *)
Definition locate_image (page_content : Tag) : io string :=
  (let infobox := find_class "table" "infobox" page_content in
   image_element <-
     lift (method infobox (fun t => find_class "td" "infobox-image" (tag t))) ;;
   match image_element with
   | Some cell => lift (subscript (find "a" (tag cell)) "href")
   | None =>
       emit Scan ;;
       lift (found <- find_all viewable_image page_content ;;
             match found with
             | first :: _ => tag_getitem (parent first) "href"
             | [] => Raise IndexError
             end)%result
   end)%io.

(** The Image URL Extractor: lines 83-87 of [get_wiki_image_url], from the
    parsed image page to the URL. *)
Definition extract_image_url (image_page_content : Tag) : io string :=
  (let image_parent := find_class "div" "fullImageLink" image_page_content in
   link <- lift (method image_parent (fun t => find "a" (tag t))) ;;
   img <- lift (method link (fun t => find "img" (tag t))) ;;
   image_url <- lift (subscript img "src") ;;
   if negb (search (Lit "http") image_url)
   then ret ("https:" +:+ image_url)
   else ret image_url)%io.

(** [base_url] of [get_wiki_image_url] and the two addresses it builds. *)
Definition base_url : string := "https://en.wikipedia.org/".

Definition page_url (page_id : JSON) : string :=
  base_url +:+ "?curid=" +:+ str page_id.

Definition image_page_url (image_url : string) : string :=
  base_url +:+ image_url.

(** [get_wiki_image_url(page_id)], lines 46-87. *)
Definition get_wiki_image_url (page_id : JSON) : io string :=
  (page <- request (page_url page_id) [] ;;
   image_url <- locate_image (BeautifulSoup page) ;;
   image_page <- request (image_page_url image_url) [] ;;
   extract_image_url (BeautifulSoup image_page))%io.

(** [main()], lines 110-113, on the command line [argv]. *)
Definition main (argv : list string) : io unit :=
  (search_term <- lift (list_getitem argv 1) ;;
   page_id <- get_wiki_page_id search_term ;;
   image_url <- get_wiki_image_url page_id ;;
   emit (Print image_url))%io.

(** Running the script: what it wrote to standard output and its exit
    status, 0 when [main] returns and 1 when an exception escapes it. *)
Definition stdout (tr : list event) : list string :=
  flat_map (fun e => match e with Print l => [l] | _ => [] end) tr.

(** A computation that prints nothing. *)
Definition silent {A} (m : io A) : Prop := stdout (fst m) = [].

(** The requests of a run, each with its address and parameters, in the
    order in which they were sent. *)
Definition http_gets (tr : list event) : list (string * list (string * string)) :=
  flat_map (fun e => match e with HttpGet u ps => [(u, ps)] | _ => [] end) tr.

(** The text [print] wrote for the printed values [out]: each value
    followed by a line feed. *)
Fixpoint written (out : list string) : string :=
  match out with
  | [] => EmptyString
  | line :: out' => line +:+ String LF (written out')
  end.

Definition exit_status {A} (r : result A) : Z :=
  match r with
  | Ok _ => 0
  | Raise _ => 1
  end.

Definition run (argv : list string) : list string * Z :=
  let (tr, r) := main argv in (stdout tr, exit_status r).

End Network.

End Script.

Import Script.

(** ** Sample pages and a sample network *)

Module Samples.

Definition img (src alt : string) : Tag :=
  mkTag "img" (<["src" := src]> (<["alt" := alt]> ∅)) [] [].

Definition link (href : string) (contents : list (Tag + string)) : Tag :=
  mkTag "a" (<["href" := href]> ∅) [] contents.

Definition element (name : string) (class_ : list string)
    (contents : list (Tag + string)) : Tag :=
  mkTag name ∅ class_ contents.

Definition document (contents : list (Tag + string)) : Tag :=
  mkTag "[document]" ∅ [] contents.

(** [<img src="photo.png&#10;" alt="foo">]: the source path ends with a
    line feed. *)
Definition img_final_newline : Tag :=
  img ("photo.png" +:+ String LF "") "foo".

(** An article without an infobox: a paragraph and a linked image. *)
Definition page_plain : Tag :=
  document
    [inl (element "p" [] [inr "Snoop Dogg is a rapper."]);
     inl (link "/wiki/File:X.jpg" [inl (img "//upload.example/x.jpg" "X")])].

(** An article whose infobox has an image cell. *)
Definition page_infobox : Tag :=
  document
    [inl (link "/wiki/File:Icon.png" [inl (img "//upload.example/icon.png" "icon")]);
     inl (element "table" ["infobox"; "vcard"]
            [inl (element "tr" []
                    [inl (element "td" ["infobox-image"]
                            [inl (link "/wiki/File:X.jpg"
                                    [inl (img "//upload.example/x.jpg" "X")])])])])].

(** An article with a table that is no infobox and has a cell of class
    [infobox-image], followed by the infobox; the image cell of the infobox
    is its second cell and holds a caption before the link. *)
Definition page_two_tables : Tag :=
  document
    [inl (element "table" ["wikitable"]
            [inl (element "td" ["infobox-image"]
                    [inl (link "/wiki/File:Other.png"
                            [inl (img "//upload.example/other.png" "other")])])]);
     inl (element "table" ["infobox"; "vcard"]
            [inl (element "td" []
                    [inl (link "/wiki/Stage_name" [inr "Stage name"])]);
             inl (element "td" ["infobox-image"]
                    [inl (element "span" [] [inr "Portrait"]);
                     inl (link "/wiki/File:X.jpg"
                            [inl (img "//upload.example/x.jpg" "X")])])])].

(** An article with two infobox tables: the first has no image cell, the
    second has one, with a link; a linked icon stands between them. *)
Definition x_link : Tag :=
  link "/wiki/File:X.jpg" [inl (img "//upload.example/x.jpg" "X")].

Definition x_cell : Tag := element "td" ["infobox-image"] [inl x_link].

Definition x_table : Tag := element "table" ["infobox"] [inl x_cell].

Definition page_second_infobox : Tag :=
  document
    [inl (element "table" ["infobox"] [inl (element "td" [] [inr "Born 1971"])]);
     inl (link "/wiki/File:Icon.png" [inl (img "//upload.example/icon.png" "icon")]);
     inl x_table].

(** An article whose infobox has no image cell; the first image of the
    page is an SVG rendition, the second one qualifies. *)
Definition page_infobox_no_cell : Tag :=
  document
    [inl (element "table" ["infobox"]
            [inl (element "tr" [] [inl (element "td" [] [inr "Born 1971"])])]);
     inl (link "/wiki/File:Logo.svg" [inl (img "//upload.example/logo.svg.png" "logo")]);
     inl (link "/wiki/File:Y.gif" [inl (img "//upload.example/y.gif" "Y")])].

(** An article whose infobox has no image cell and that has no image. *)
Definition page_no_image : Tag :=
  document
    [inl (element "table" ["infobox"]
            [inl (element "tr" [] [inl (element "td" [] [inr "Born 1971"])])]);
     inl (element "p" [] [inr "No picture."])].

(** An article whose infobox has no image cell, with a qualifying image
    followed by an image that has no [src]. *)
Definition page_img_without_src : Tag :=
  document
    [inl (element "table" ["infobox"] []);
     inl (link "/wiki/File:Y.gif" [inl (img "//upload.example/y.gif" "Y")]);
     inl (mkTag "img" (<["alt" := "spacer"]> ∅) [] [])].

(** The description page of an image. *)
Definition image_page : Tag :=
  document
    [inl (element "div" ["fullImageLink"]
            [inl (link "//upload.example/foo.png"
                    [inl (img "//upload.example/foo.png" "File:Foo.png")])])].

(** A description page whose image has an absolute address. *)
Definition image_page_absolute : Tag :=
  document
    [inl (element "div" ["fullImageLink"]
            [inl (link "https://upload.example/foo.png"
                    [inl (img "https://upload.example/foo.png" "File:Foo.png")])])].

(** Description pages that lack the container, the link in it, or the
    image in the link. *)
Definition image_page_no_div : Tag :=
  document [inl (element "p" [] [inr "Nothing here."])].

Definition image_page_no_link : Tag :=
  document [inl (element "div" ["fullImageLink"] [inr "Nothing here."])].

Definition image_page_no_img : Tag :=
  document
    [inl (element "div" ["fullImageLink"]
            [inl (link "//upload.example/foo.png" [inr "foo.png"])])].

(** A description page whose image element has no [src]. *)
Definition image_page_no_src : Tag :=
  document
    [inl (element "div" ["fullImageLink"]
            [inl (link "//upload.example/foo.png"
                    [inl (mkTag "img" (<["alt" := "File:Foo.png"]> ∅) [] [])])])].

(** Articles whose infobox image cell holds no link, or a link without
    [href]; a linked image follows the infobox in both. *)
Definition page_cell_without_link : Tag :=
  document
    [inl (element "table" ["infobox"]
            [inl (element "td" ["infobox-image"]
                    [inl (img "//upload.example/x.jpg" "X")])]);
     inl (link "/wiki/File:Y.gif" [inl (img "//upload.example/y.gif" "Y")])].

Definition page_link_without_href : Tag :=
  document
    [inl (element "table" ["infobox"]
            [inl (element "td" ["infobox-image"]
                    [inl (element "a" [] [inl (img "//upload.example/x.jpg" "X")])])]);
     inl (link "/wiki/File:Y.gif" [inl (img "//upload.example/y.gif" "Y")])].

(** An article whose infobox has no image cell and whose first qualifying
    image stands in a paragraph, not in a link; a linked image follows. *)
Definition page_unlinked_image : Tag :=
  document
    [inl (element "table" ["infobox"] []);
     inl (element "p" [] [inl (img "//upload.example/x.jpg" "X")]);
     inl (link "/wiki/File:Y.gif" [inl (img "//upload.example/y.gif" "Y")])].

(** A search response that reports an error instead of results. *)
Definition sample_json_error (content : string) : result JSON :=
  Ok (JDict {[ "error" := JDict {[ "code" := JStr "badvalue" ]} ]}).

(** A sample network.  The search for ["Snoop Dogg"] has two results, any
    other search has none; article 12345 is [page_infobox], the page of its
    image is [image_page]. *)
Definition sample_str (v : JSON) : string :=
  match v with
  | JInt i => NilZero.string_of_int (Z.to_int i)
  | JStr s => s
  | _ => "None"
  end.

Definition sample_get (url : string) (params : list (string * string))
    : result string :=
  if String.eqb url api_url then
    if bool_decide (params = search_params "Snoop Dogg")
    then Ok "two results" else Ok "no results"
  else if String.eqb url "https://en.wikipedia.org/?curid=12345" then Ok "article"
  else if String.eqb url "https://en.wikipedia.org//wiki/File:X.jpg" then Ok "file"
  else Raise (Other "ConnectionError").

Definition sample_json (content : string) : result JSON :=
  if String.eqb content "two results" then
    Ok (JDict {[ "query" :=
          JDict {[ "search" :=
            JList [JDict {[ "pageid" := JInt 12345 ]};
                   JDict {[ "pageid" := JInt 777 ]}] ]} ]})
  else if String.eqb content "no results" then
    Ok (JDict {[ "query" := JDict {[ "search" := JList [] ]} ]})
  else Raise (Other "JSONDecodeError").

Definition sample_soup (content : string) : Tag :=
  if String.eqb content "article" then page_infobox
  else if String.eqb content "file" then image_page
  else document [].

End Samples.

Import Samples.

(** * Properties *)

(** ** Strings *)

Lemma append_cons (c : ascii) (s t : string) :
  String c s +:+ t = String c (s +:+ t).
Proof. reflexivity. Qed.

Lemma append_nil_l (s : string) : "" +:+ s = s.
Proof. reflexivity. Qed.

Lemma append_nil_r (s : string) : s +:+ "" = s.
Proof.
  induction s as [|c s IH]; [reflexivity |].
  now rewrite append_cons, IH.
Qed.

Lemma append_assoc (a b c : string) : (a +:+ b) +:+ c = a +:+ (b +:+ c).
Proof.
  induction a as [|x a IH]; [reflexivity |].
  now rewrite !append_cons, IH.
Qed.

Lemma append_eq_nil (a b : string) : a +:+ b = "" -> a = "" /\ b = "".
Proof. destruct a; [auto | rewrite append_cons; discriminate]. Qed.

Lemma lower_app (a b : string) : lower (a +:+ b) = lower a +:+ lower b.
Proof.
  induction a as [|x a IH]; [reflexivity |].
  rewrite append_cons; simpl; now rewrite IH.
Qed.

Lemma lower_char_LF (c : ascii) : lower_char c = LF <-> c = LF.
Proof.
  split; [| intros ->; reflexivity].
  destruct c as [[] [] [] [] [] [] [] []]; vm_compute; intros H;
    first [reflexivity | discriminate H].
Qed.

Lemma has_char_lower (s : string) : has_char LF (lower s) <-> has_char LF s.
Proof.
  induction s as [|c s IH]; simpl; [tauto |].
  rewrite lower_char_LF, IH. tauto.
Qed.

Lemma has_char_app (c : ascii) (a b : string) :
  has_char c (a +:+ b) <-> has_char c a \/ has_char c b.
Proof.
  induction a as [|x a IH]; [rewrite append_nil_l; simpl; tauto |].
  rewrite append_cons; simpl; rewrite IH; tauto.
Qed.

Lemma at_end_iff (s : string) : at_end s = true <-> s = "" \/ s = String LF "".
Proof.
  destruct s as [|c [|d s]]; simpl.
  - split; auto.
  - destruct (Ascii.ascii_dec c LF) as [->|Hc].
    + split; auto.
    + split; [discriminate | intros [H|H]; [discriminate | congruence]].
  - split; [discriminate | intros [H|H]; discriminate].
Qed.

Lemma chomp_cons2 (c d : ascii) (s : string) :
  chomp (String c (String d s)) = String c (chomp (String d s)).
Proof. reflexivity. Qed.

(** [chomp] splits a string into what [$] leaves before it and the rest. *)
Lemma chomp_split (s : string) :
  exists rest, s = chomp s +:+ rest /\ at_end rest = true.
Proof.
  induction s as [|c s IH].
  - exists ""; split; reflexivity.
  - destruct s as [|d s].
    + simpl. destruct (Ascii.ascii_dec c LF) as [->|Hc].
      * exists (String LF ""); split; reflexivity.
      * exists ""; split; reflexivity.
    + destruct IH as (rest & Heq & Hend).
      exists rest; split; [| exact Hend].
      rewrite chomp_cons2, append_cons. now rewrite <- Heq.
Qed.

Lemma chomp_unique (x rest : string) :
  ~ ends_with (String LF "") x -> at_end rest = true -> chomp (x +:+ rest) = x.
Proof.
  intros Hx Hrest; apply at_end_iff in Hrest.
  induction x as [|c x IH].
  - destruct Hrest as [-> | ->]; reflexivity.
  - rewrite append_cons.
    destruct (x +:+ rest) as [|d y] eqn:E.
    + apply append_eq_nil in E as [-> _]. simpl.
      destruct (Ascii.ascii_dec c LF) as [->|Hc]; [| reflexivity].
      exfalso; apply Hx; exists ""; reflexivity.
    + rewrite chomp_cons2. f_equal. apply IH.
      intros [pre Hpre]; apply Hx; exists (String c pre).
      now rewrite append_cons, Hpre.
Qed.

Lemma chomp_no_LF (s : string) : ~ has_char LF s -> chomp s = s.
Proof.
  intros H. rewrite <- (append_nil_r s) at 1.
  apply chomp_unique; [| reflexivity].
  intros [pre ->]; apply H, has_char_app; right; simpl; auto.
Qed.

Lemma append_last_inj (a b : string) (c d : ascii) :
  a +:+ String c "" = b +:+ String d "" -> c = d.
Proof.
  revert b; induction a as [|x a IH]; intros [|y b] H;
    rewrite ?append_cons, ?append_nil_l in H.
  - congruence.
  - injection H as _ H. destruct b; rewrite ?append_cons in H; discriminate.
  - injection H as _ H. destruct a; rewrite ?append_cons in H; discriminate.
  - injection H as _ H. eauto.
Qed.

Lemma no_final_LF (pre w : string) (c : ascii) :
  c <> LF -> ~ ends_with (String LF "") (pre +:+ w +:+ String c "").
Proof.
  intros Hc [y Hy]. rewrite <- append_assoc in Hy.
  apply append_last_inj in Hy. contradiction.
Qed.

Lemma contains_cons (sub : string) (c : ascii) (s : string) :
  sub <> "" ->
  contains sub (String c s) <->
  (exists t, String c s = sub +:+ t) \/ contains sub s.
Proof.
  intros Hsub; split.
  - intros ([|x pre] & post & H).
    + left; exists post; exact H.
    + right; exists pre, post. rewrite append_cons in H. congruence.
  - intros [[t H] | (pre & post & H)].
    + exists "", t; exact H.
    + exists (String c pre), post. now rewrite append_cons, H.
Qed.

Lemma contains_nil (sub : string) : sub <> "" -> ~ contains sub "".
Proof.
  intros Hsub (pre & post & H). symmetry in H.
  apply append_eq_nil in H as [_ H]. apply append_eq_nil in H as [H _].
  contradiction.
Qed.

(** ** Regular expressions: what the script's three patterns accept *)

Lemma matches_Lit (w : string) (b : bool) (s : string) (k : bool -> string -> bool) :
  matches (Lit w) b s k = true <->
  exists s', s = w +:+ s' /\ k (match w with "" => b | _ => false end) s' = true.
Proof.
  revert b s; induction w as [|c w IH]; intros b s; simpl.
  - split; [intros H; exists s; auto | intros (s' & -> & H); exact H].
  - destruct s as [|c' s1].
    + split; [discriminate | intros (s' & H & _); rewrite append_cons in H; discriminate].
    + destruct (Ascii.ascii_dec c' c) as [->|Hc].
      * rewrite IH. split.
        -- intros (s' & -> & H). exists s'; split; [reflexivity |].
           destruct w; exact H.
        -- intros (s' & H & Hk). rewrite append_cons in H. injection H as ->.
           exists s'; split; [reflexivity |]. destruct w; exact Hk.
      * split; [discriminate |].
        intros (s' & H & _). rewrite append_cons in H. congruence.
Qed.

Lemma search_from_spec (r : regex) (b : bool) (s : string) :
  search_from r b s = true <->
  exists pre post, s = pre +:+ post /\
    matches r (match pre with "" => b | _ => false end) post (fun _ _ => true) = true.
Proof.
  revert b; induction s as [|c s IH]; intros b; simpl; rewrite orb_true_iff.
  - split.
    + intros [H | H]; [exists "", ""; auto | discriminate].
    + intros (pre & post & H & Hm). symmetry in H.
      apply append_eq_nil in H as [-> ->]. auto.
  - rewrite IH. split.
    + intros [H | (pre & post & -> & H)].
      * exists "", (String c s); auto.
      * exists (String c pre), post; split; [reflexivity |].
        destruct pre; exact H.
    + intros ([|x pre] & post & H & Hm).
      * rewrite append_nil_l in H; subst post; auto.
      * rewrite append_cons in H. injection H as -> ->.
        right; exists pre, post; split; [reflexivity |].
        destruct pre; exact Hm.
Qed.

(** [re.search("http", s)] is the substring test. *)
Lemma search_Lit (w s : string) :
  search (Lit w) s = true <-> contains w s.
Proof.
  unfold search, contains. rewrite search_from_spec. split.
  - intros (pre & post & -> & H). apply matches_Lit in H as (s' & -> & _).
    exists pre, s'; reflexivity.
  - intros (pre & post & ->). exists pre, (w +:+ post); split; [reflexivity |].
    apply matches_Lit. exists post; auto.
Qed.

Lemma matches_Eol (b : bool) (s : string) :
  matches Eol b s (fun _ _ => true) = at_end s.
Proof. simpl. now destruct (at_end s). Qed.

Lemma matches_Lit_Eol (w : string) (b : bool) (s : string) :
  matches (Lit w) b s (fun b' s' => matches Eol b' s' (fun _ _ => true)) = true <->
  exists rest, s = w +:+ rest /\ at_end rest = true.
Proof.
  rewrite matches_Lit. split; intros (rest & -> & H); exists rest;
    (split; [reflexivity |]); now rewrite matches_Eol in *.
Qed.

Lemma matches_viewable (b : bool) (s : string) :
  matches regex_viewable b s (fun _ _ => true) = true <->
  exists ext rest, In ext extensions /\ s = ext +:+ rest /\ at_end rest = true.
Proof.
  unfold regex_viewable, extensions.
  change (matches (Seq ?r Eol) b s ?k) with
    (matches r b s (fun b' s' => matches Eol b' s' k)).
  change (matches (Alt ?r1 (Alt ?r2 (Alt ?r3 ?r4))) b s ?k) with
    (matches r1 b s k || (matches r2 b s k || (matches r3 b s k || matches r4 b s k))).
  rewrite !orb_true_iff, !matches_Lit_Eol. split.
  - intros [H | [H | [H | H]]]; destruct H as (rest & H & Hend);
      eexists _, rest; (split; [| split; [exact H | exact Hend]]); simpl; auto.
  - intros (ext & rest & Hin & H & Hend). simpl in Hin.
    destruct Hin as [<- | [<- | [<- | [<- | []]]]]; eauto 6.
Qed.

(** ["(jpg|jpeg|gif|png)$"] is found when the subject, a final line feed set
    aside, ends with one of the four words. *)
Lemma search_viewable (s : string) :
  search regex_viewable s = true <->
  exists ext, In ext extensions /\ ends_with ext (chomp s).
Proof.
  unfold search. rewrite search_from_spec. split.
  - intros (pre & post & -> & H).
    apply matches_viewable in H as (ext & rest & Hin & -> & Hend).
    exists ext; split; [exact Hin |]. exists pre.
    rewrite <- append_assoc. apply chomp_unique; [| exact Hend].
    simpl in Hin. destruct Hin as [<- | [<- | [<- | [<- | []]]]].
    + apply (no_final_LF pre "jp" "g"); discriminate.
    + apply (no_final_LF pre "jpe" "g"); discriminate.
    + apply (no_final_LF pre "gi" "f"); discriminate.
    + apply (no_final_LF pre "pn" "g"); discriminate.
  - intros (ext & Hin & pre & Hpre).
    destruct (chomp_split s) as (rest & Hs & Hend).
    exists pre, (ext +:+ rest); split.
    + rewrite Hs at 1. now rewrite Hpre, append_assoc.
    + apply matches_viewable. eauto.
Qed.

(** One iteration of [((?!svg).)*]: a character that is no line feed, at a
    place where ["svg"] does not start. *)
Lemma matches_not_svg_dot (b : bool) (s : string) (k : bool -> string -> bool) :
  matches (Seq (NotAhead (Lit "svg")) Dot) b s k = true <->
  exists c s', s = String c s' /\ c <> LF /\
    ~ (exists t, s = "svg" +:+ t) /\ k false s' = true.
Proof.
  change (matches (Seq (NotAhead (Lit "svg")) Dot) b s k) with
    (if matches (Lit "svg") b s (fun _ _ => true) then false
     else matches Dot b s k).
  destruct (matches (Lit "svg") b s (fun _ _ => true)) eqn:E.
  - apply matches_Lit in E as (t & Ht & _). split; [discriminate |].
    intros (c & s' & _ & _ & Hn & _). exfalso; apply Hn; eauto.
  - assert (Hn : ~ (exists t, s = "svg" +:+ t)).
    { intros (t & Ht). assert (E' : matches (Lit "svg") b s (fun _ _ => true) = true)
        by (apply matches_Lit; eauto). congruence. }
    destruct s as [|c s']; simpl.
    + split; [discriminate | intros (c & s' & H & _); discriminate].
    + destruct (Ascii.ascii_dec c LF) as [->|Hc].
      * split; [discriminate |]. intros (c & s2 & H & Hc & _). congruence.
      * split; [intros H; eauto 6 |]. intros (c2 & s2 & H & _ & _ & Hk). congruence.
Qed.

(** A word that starts ["svg"] is longer than what [$] leaves after it. *)
Lemma svg_prefix_app (x rest t : string) :
  at_end rest = true -> x <> "" -> x +:+ rest = "svg" +:+ t ->
  exists t', x = "svg" +:+ t'.
Proof.
  intros Hend Hx H. apply at_end_iff in Hend.
  destruct x as [|c0 [|c1 [|c2 x]]]; [contradiction | | |].
  - destruct Hend as [-> | ->]; discriminate H.
  - destruct Hend as [-> | ->]; discriminate H.
  - rewrite !append_cons in H. injection H as -> -> -> _. exists x; reflexivity.
Qed.

(** The loop of [((?!svg).)*] followed by [$]. *)
Lemma star_not_svg (n : nat) (b : bool) (s : string) :
  (String.length s <= n)%nat ->
  star_loop (matches (Seq (NotAhead (Lit "svg")) Dot))
    (fun b' s' => matches Eol b' s' (fun _ _ => true)) n b s = true <->
  exists x rest, s = x +:+ rest /\ at_end rest = true /\
    ~ has_char LF x /\ ~ contains "svg" x.
Proof.
  revert b s; induction n as [|n IH]; intros b s Hlen.
  - destruct s; [| simpl in Hlen; lia]. simpl. split; [intros _ | reflexivity].
    exists "", ""; repeat split; [tauto | apply contains_nil; discriminate].
  - cbn [star_loop]. rewrite orb_true_iff, matches_not_svg_dot, matches_Eol. split.
    + intros [(c & s' & -> & Hc & Hn & Hk) | Hend].
      * simpl String.length in Hk.
        assert (Hlt : Nat.ltb (String.length s') (S (String.length s')) = true)
          by (apply Nat.ltb_lt; lia).
        rewrite Hlt in Hk.
        apply IH in Hk as (x & rest & -> & Hend & HLF & Hsvg);
          [| simpl in Hlen; lia].
        exists (String c x), rest. repeat split; [exact Hend | |].
        -- simpl. intros [H | H]; [congruence | contradiction].
        -- intros H. apply contains_cons in H as [(t & Ht) | H];
             [| contradiction | discriminate].
           apply Hn. exists (t +:+ rest).
           rewrite <- append_assoc, <- Ht. reflexivity.
      * exists "", s. repeat split; [exact Hend | tauto |].
        apply contains_nil; discriminate.
    + intros ([|c x] & rest & -> & Hend & HLF & Hsvg).
      * right; exact Hend.
      * left. exists c, (x +:+ rest). rewrite append_cons.
        split; [reflexivity |]. split; [simpl in HLF; tauto |]. split.
        -- intros (t & Ht). rewrite <- append_cons in Ht.
           apply svg_prefix_app in Ht as (t' & Ht'); [| exact Hend | discriminate].
           apply Hsvg. exists "", t'. exact Ht'.
        -- simpl String.length.
           assert (Hlt : Nat.ltb (String.length (x +:+ rest))
                           (S (String.length (x +:+ rest))) = true)
             by (apply Nat.ltb_lt; lia).
           rewrite Hlt. apply IH.
           ++ rewrite append_cons in Hlen. simpl in Hlen. lia.
           ++ exists x, rest. repeat split; [exact Hend | simpl in HLF; tauto |].
              intros H. apply Hsvg. apply contains_cons; [discriminate | auto].
Qed.

Lemma search_from_Bol (r : regex) (s : string) :
  search_from (Seq Bol r) false s = false.
Proof. induction s as [|c s IH]; simpl; [reflexivity | exact IH]. Qed.

(** ["^((?!svg).)*$"] is found when the subject, a final line feed set
    aside, has no line feed and does not contain ["svg"]. *)
Lemma search_not_viewable (s : string) :
  search regex_not_viewable s = true <->
  ~ has_char LF (chomp s) /\ ~ contains "svg" (chomp s).
Proof.
  assert (E : search regex_not_viewable s =
              star_loop (matches (Seq (NotAhead (Lit "svg")) Dot))
                (fun b' s' => matches Eol b' s' (fun _ _ => true))
                (String.length s) true s).
  { unfold search, regex_not_viewable.
    destruct s as [|c s]; cbn [search_from];
      rewrite ?search_from_Bol, ?orb_false_r; reflexivity. }
  rewrite E, star_not_svg by lia. split.
  - intros (x & rest & -> & Hend & HLF & Hsvg).
    rewrite chomp_unique; [auto | | exact Hend].
    intros [pre ->]. apply HLF, has_char_app. right; simpl; auto.
  - intros [HLF Hsvg]. destruct (chomp_split s) as (rest & Hs & Hend).
    exists (chomp s), rest. auto.
Qed.

(** What [re.search] answers for the three patterns of the script. *)
Theorem script_patterns (s : string) :
  (search regex_viewable s = true <->
   exists ext, In ext extensions /\ ends_with ext (chomp s)) /\
  (search regex_not_viewable s = true <->
   ~ has_char LF (chomp s) /\ ~ contains "svg" (chomp s)) /\
  (search (Lit "http") s = true <-> contains "http" s).
Proof.
  split; [apply search_viewable |].
  split; [apply search_not_viewable | apply search_Lit].
Qed.

(** ** The viewable-image predicate *)

Lemma tag_getitem_Some (t : Tag) (k v : string) :
  attrs t !! k = Some v -> tag_getitem t k = Ok v.
Proof. unfold tag_getitem; now intros ->. Qed.

Lemma tag_getitem_None (t : Tag) (k : string) :
  attrs t !! k = None -> tag_getitem t k = Raise (KeyError (KStr k)).
Proof. unfold tag_getitem; now intros ->. Qed.

(** On a tag that has both attributes the predicate is the conjunction of
    its four tests. *)
Lemma viewable_image_eval (t : Tag) (src alt : string) :
  attrs t !! "src" = Some src -> attrs t !! "alt" = Some alt ->
  viewable_image t =
  Ok (String.eqb (name t) "img"
      && search regex_not_viewable (lower src)
      && search regex_viewable (lower src)
      && negb (String.eqb alt "dagger")).
Proof.
  intros Hsrc Halt. unfold viewable_image, py_and.
  rewrite (tag_getitem_Some _ _ _ Hsrc), (tag_getitem_Some _ _ _ Halt). simpl.
  destruct (String.eqb (name t) "img"); [| reflexivity].
  destruct (search regex_not_viewable (lower src)); [| reflexivity].
  destruct (search regex_viewable (lower src)); reflexivity.
Qed.

(** An answer of [true] needs both attributes. *)
Lemma viewable_image_true_attrs (t : Tag) :
  viewable_image t = Ok true ->
  exists src alt, attrs t !! "src" = Some src /\ attrs t !! "alt" = Some alt.
Proof.
  unfold viewable_image, py_and, tag_getitem. simpl.
  destruct (String.eqb (name t) "img"); [| discriminate].
  destruct (attrs t !! "src") as [src|]; [| discriminate]. simpl.
  destruct (search regex_not_viewable (lower src)); [| discriminate].
  destruct (search regex_viewable (lower src)); [| discriminate].
  destruct (attrs t !! "alt") as [alt|]; [| discriminate].
  intros _; eauto.
Qed.

(** The exact condition under which the predicate answers [true]. *)
Lemma viewable_image_true_iff (t : Tag) :
  viewable_image t = Ok true <-> viewable_exactly t.
Proof.
  split.
  - intros H. destruct (viewable_image_true_attrs t H) as (src & alt & Hsrc & Halt).
    rewrite (viewable_image_eval t src alt Hsrc Halt) in H.
    injection H as H. rewrite !andb_true_iff, negb_true_iff in H.
    destruct H as (((Hname & Hnot) & Hview) & Hdag).
    apply String.eqb_eq in Hname. apply String.eqb_neq in Hdag.
    apply search_not_viewable in Hnot as [HLF Hsvg].
    apply search_viewable in Hview. split; eauto 10.
  - intros (Hname & src & alt & Hsrc & Halt & Hext & Hsvg & HLF & Hdag).
    rewrite (viewable_image_eval t src alt Hsrc Halt). f_equal.
    rewrite !andb_true_iff, negb_true_iff. repeat split.
    + now apply String.eqb_eq.
    + apply search_not_viewable; auto.
    + apply search_viewable; exact Hext.
    + now apply String.eqb_neq.
Qed.

Lemma viewable_image_false_src (t : Tag) (src : string) :
  attrs t !! "src" = Some src ->
  search regex_not_viewable (lower src) && search regex_viewable (lower src) = false ->
  viewable_image t = Ok false.
Proof.
  intros Hsrc H. unfold viewable_image, py_and.
  rewrite (tag_getitem_Some _ _ _ Hsrc). simpl.
  destruct (String.eqb (name t) "img"); [| reflexivity].
  destruct (search regex_not_viewable (lower src)); [| reflexivity].
  simpl in H. now rewrite H.
Qed.

Lemma viewable_specified_no_LF (t : Tag) :
  (forall src, attrs t !! "src" = Some src -> ~ has_char LF src) ->
  viewable_exactly t <-> viewable_as_specified t.
Proof.
  intros HLF. unfold viewable_exactly, viewable_as_specified.
  split; intros (Hname & src & alt & Hsrc & Halt & H).
  - assert (E : chomp (lower src) = lower src)
      by (apply chomp_no_LF; rewrite has_char_lower; auto).
    rewrite E in H. destruct H as (Hext & Hsvg & _ & Hdag). eauto 10.
  - assert (Hl : ~ has_char LF (lower src)) by (rewrite has_char_lower; auto).
    destruct H as (Hext & Hsvg & Hdag).
    split; [exact Hname |]. exists src, alt.
    rewrite (chomp_no_LF _ Hl). auto 10.
Qed.

(** C1 (as amended).  [viewable_image] answers [true] exactly for an image
    element that has both attributes, whose lower-cased source path, a final
    line feed set aside, ends with jpg, jpeg, gif or png, contains neither
    ["svg"] nor a line feed, and whose alternate text is not ["dagger"].
    For a source path without line feed this is the condition the
    specification words.  A path ending [.JPG] with alternate text ["foo"]
    qualifies (when it has no line feed and no ["svg"]); [photo.svg] and
    [photo.svg.png] do not, and neither does any element whose alternate
    text is ["dagger"]. *)
Theorem viewable_image_spec (t : Tag) :
  (viewable_image t = Ok true <-> viewable_exactly t) /\
  ((forall src, attrs t !! "src" = Some src -> ~ has_char LF src) ->
   (viewable_image t = Ok true <-> viewable_as_specified t)) /\
  (forall pre,
     name t = "img" -> attrs t !! "src" = Some (pre +:+ ".JPG") ->
     attrs t !! "alt" = Some "foo" ->
     ~ has_char LF pre -> ~ contains "svg" (lower (pre +:+ ".JPG")) ->
     viewable_image t = Ok true) /\
  (attrs t !! "src" = Some "photo.svg" -> viewable_image t = Ok false) /\
  (attrs t !! "src" = Some "photo.svg.png" -> viewable_image t = Ok false) /\
  (forall src,
     attrs t !! "src" = Some src -> attrs t !! "alt" = Some "dagger" ->
     viewable_image t = Ok false).
Proof.
  split; [apply viewable_image_true_iff |].
  split; [intros HLF; rewrite viewable_image_true_iff;
          now apply viewable_specified_no_LF |].
  split; [| split; [| split]].
  - intros pre Hname Hsrc Halt HLF Hsvg.
    apply viewable_image_true_iff. split; [exact Hname |].
    exists (pre +:+ ".JPG"), "foo".
    assert (Hl : ~ has_char LF (lower (pre +:+ ".JPG"))).
    { rewrite has_char_lower, has_char_app. simpl.
      intros [H | [H | [H | [H | [H | []]]]]]; [auto | discriminate H ..]. }
    rewrite (chomp_no_LF _ Hl).
    split; [exact Hsrc |]. split; [exact Halt |].
    split; [| split; [exact Hsvg | split; [exact Hl | discriminate]]].
    exists "jpg"; split; [simpl; auto |]. exists (lower pre +:+ ".").
    rewrite lower_app, append_assoc. reflexivity.
  - intros Hsrc. now apply (viewable_image_false_src t "photo.svg").
  - intros Hsrc. now apply (viewable_image_false_src t "photo.svg.png").
  - intros src Hsrc Halt. rewrite (viewable_image_eval t src "dagger" Hsrc Halt).
    simpl. now rewrite andb_false_r.
Qed.

Lemma viewable_image_spec_witness :
  viewable_image (img "Snoop.JPG" "foo") = Ok true /\
  viewable_image (img "photo.svg" "foo") = Ok false.
Proof.
  split.
  - apply (proj1 (proj2 (proj2 (viewable_image_spec (img "Snoop.JPG" "foo")))) "Snoop");
      try reflexivity.
    + simpl. intros H; repeat destruct H as [H | H]; first [discriminate H | exact H].
    + intros H. apply search_Lit in H. discriminate H.
  - apply (proj1 (proj2 (proj2 (proj2 (viewable_image_spec (img "photo.svg" "foo")))))).
    reflexivity.
Defined.

(** C1 (as stated) fails where the source path ends with a line feed: [$]
    matches before it, so the predicate answers [true] for a path that does
    not end with any of the extensions. *)
Lemma viewable_image_final_newline :
  viewable_image img_final_newline = Ok true /\
  ~ viewable_as_specified img_final_newline.
Proof.
  split; [reflexivity |].
  intros (_ & src & alt & Hsrc & _ & (ext & Hin & pre & Hpre) & _).
  assert (E : attrs img_final_newline !! "src" = Some ("photo.png" +:+ String LF ""))
    by reflexivity.
  rewrite E in Hsrc. injection Hsrc as <-.
  change (lower ("photo.png" +:+ String LF "")) with ("photo.png" +:+ String LF "") in Hpre.
  assert (Hlast : forall w c, c <> LF -> ext = w +:+ String c "" -> False).
  { intros w c Hc ->. apply Hc. symmetry.
    apply (append_last_inj "photo.png" (pre +:+ w)).
    rewrite append_assoc. exact Hpre. }
  simpl in Hin. destruct Hin as [<- | [<- | [<- | [<- | []]]]].
  - apply (Hlast "jp" "g"%char); [discriminate | reflexivity].
  - apply (Hlast "jpe" "g"%char); [discriminate | reflexivity].
  - apply (Hlast "gi" "f"%char); [discriminate | reflexivity].
  - apply (Hlast "pn" "g"%char); [discriminate | reflexivity].
Qed.

(** C10.  An image element without [src] makes the predicate raise
    [KeyError], and so does one that passes both tests on [src] and has no
    [alt]: the predicate does not answer [false] for them. *)
Theorem viewable_image_KeyError (t : Tag) :
  name t = "img" ->
  (attrs t !! "src" = None -> viewable_image t = Raise (KeyError (KStr "src"))) /\
  (forall src,
     attrs t !! "src" = Some src ->
     search regex_not_viewable (lower src) = true ->
     search regex_viewable (lower src) = true ->
     attrs t !! "alt" = None ->
     viewable_image t = Raise (KeyError (KStr "alt"))).
Proof.
  intros Hname. unfold viewable_image, py_and. rewrite Hname. simpl. split.
  - intros Hsrc. now rewrite (tag_getitem_None _ _ Hsrc).
  - intros src Hsrc Hnot Hview Halt.
    rewrite (tag_getitem_Some _ _ _ Hsrc), (tag_getitem_None _ _ Halt). simpl.
    now rewrite Hnot, Hview.
Qed.

Lemma viewable_image_KeyError_witness :
  viewable_image (mkTag "img" ∅ [] []) = Raise (KeyError (KStr "src")) /\
  viewable_image (mkTag "img" (<["src" := "a.png"]> ∅) [] [])
  = Raise (KeyError (KStr "alt")).
Proof.
  split.
  - apply (viewable_image_KeyError (mkTag "img" ∅ [] [])); reflexivity.
  - apply (viewable_image_KeyError (mkTag "img" (<["src" := "a.png"]> ∅) [] []))
      with (src := "a.png"); reflexivity.
Defined.

(** ** The tree queries *)

Lemma find_class_Some (n c : string) (t : Tag) (e : Element) :
  find_class n c t = Some e ->
  In e (descendants t) /\ name (tag e) = n /\ has_class c (tag e) = true.
Proof.
  intros H. apply List.find_some in H as [Hin H].
  apply andb_true_iff in H as [Hn Hc]. apply String.eqb_eq in Hn. auto.
Qed.

Lemma find_class_None (n c : string) (t : Tag) :
  find_class n c t = None <->
  forall e, In e (descendants t) -> name (tag e) = n -> has_class c (tag e) = false.
Proof.
  unfold find_class. split.
  - intros H e Hin Hn. pose proof (List.find_none _ _ H e Hin) as Hf. simpl in Hf.
    apply String.eqb_eq in Hn. now rewrite Hn in Hf.
  - intros H.
    destruct (List.find _ (descendants t)) as [e|] eqn:E; [| reflexivity].
    apply List.find_some in E as [Hin E].
    apply andb_true_iff in E as [Hn Hc]. apply String.eqb_eq in Hn.
    rewrite (H e Hin Hn) in Hc. discriminate.
Qed.

(** The first tag [find_all] returns is the first one, in document order,
    that the function accepts. *)
Lemma filter_tags_first (f : Tag -> result bool) (l : list Element)
    (first : Element) (rest : list Element) :
  filter_tags f l = Ok (first :: rest) ->
  exists l1 l2,
    l = l1 ++ first :: l2 /\ f (tag first) = Ok true /\
    (forall e, In e l1 -> f (tag e) = Ok false).
Proof.
  induction l as [|e l IH]; simpl; [discriminate |].
  destruct (f (tag e)) as [b|x] eqn:Ef; simpl; [| discriminate].
  destruct (filter_tags f l) as [found|x]; simpl; [| discriminate].
  destruct b.
  - intros [= <- <-]. exists [], l. repeat split; [exact Ef | intros e' []].
  - intros [= ->]. destruct (IH eq_refl) as (l1 & l2 & -> & Hf & Hl1).
    exists (e :: l1), l2. repeat split; [exact Hf |].
    intros e' [<- | Hin]; auto.
Qed.

(** ** Sequencing *)

Lemma bind_lift_Ok {A B} (a : A) (f : A -> io B) : bind (lift (Ok a)) f = f a.
Proof. unfold bind, lift. now destruct (f a). Qed.

Lemma bind_emit {B} (ev : event) (f : unit -> io B) :
  bind (emit ev) f = (ev :: fst (f tt), snd (f tt)).
Proof. unfold bind, emit. now destruct (f tt). Qed.

Lemma bind_Ok {A B} (tr : list event) (a : A) (f : A -> io B) :
  bind (tr, Ok a) f = (tr ++ fst (f a), snd (f a)).
Proof. unfold bind. now destruct (f a). Qed.

(** ** The Primary Image Locator *)

(** Without an infobox table the locator ends with [AttributeError], and
    no scan takes place. *)
Lemma locate_image_no_infobox (page : Tag) :
  find_class "table" "infobox" page = None ->
  locate_image page = ([], Raise AttributeError).
Proof. unfold locate_image. now intros ->. Qed.

Lemma locate_image_fallback (page : Tag) (tbl : Element) :
  find_class "table" "infobox" page = Some tbl ->
  find_class "td" "infobox-image" (tag tbl) = None ->
  locate_image page =
  ([Scan],
   (found <- find_all viewable_image page ;;
    match found with
    | first :: _ => tag_getitem (parent first) "href"
    | [] => Raise IndexError
    end)%result).
Proof. unfold locate_image. intros -> . simpl. now intros ->. Qed.

(** The structured lookup in terms of the three queries: when each of
    them finds a tag and the link has an [href], the locator returns that
    [href] as it stands, and the whole-page scan does not take place. *)
Theorem locate_image_infobox (page : Tag) (tbl cell a : Element) (href : string) :
  find_class "table" "infobox" page = Some tbl ->
  find_class "td" "infobox-image" (tag tbl) = Some cell ->
  find "a" (tag cell) = Some a ->
  attrs (tag a) !! "href" = Some href ->
  locate_image page = ([], Ok href) /\ ~ In Scan (fst (locate_image page)).
Proof.
  intros Htbl Hcell Ha Hhref.
  assert (E : locate_image page = ([], Ok href)).
  { unfold locate_image. rewrite Htbl. simpl. rewrite Hcell, Ha. simpl.
    now rewrite (tag_getitem_Some _ _ _ Hhref). }
  rewrite E. split; [reflexivity | simpl; tauto].
Qed.

Lemma locate_image_infobox_witness :
  locate_image page_infobox = ([], Ok "/wiki/File:X.jpg").
Proof.
  destruct (find_class "table" "infobox" page_infobox) as [tbl|] eqn:Htbl;
    [| discriminate Htbl].
  destruct (find_class "td" "infobox-image" (tag tbl)) as [cell|] eqn:Hcell;
    [| injection Htbl as <-; discriminate Hcell].
  destruct (find "a" (tag cell)) as [a|] eqn:Ha;
    [| injection Htbl as <-; injection Hcell as <-; discriminate Ha].
  apply (locate_image_infobox page_infobox tbl cell a "/wiki/File:X.jpg" Htbl Hcell Ha).
  injection Htbl as <-; injection Hcell as <-; injection Ha as <-. reflexivity.
Defined.

(** The queries return the first tag, in document order, that has the
    name and the class asked for. *)
Lemma has_class_iff (c : string) (t : Tag) : has_class c t = true <-> classed c t.
Proof.
  unfold has_class, classed.
  rewrite orb_true_iff, existsb_exists, String.eqb_eq. split.
  - intros [(x & Hin & Hx) | H]; [| now right].
    apply String.eqb_eq in Hx; subst x. now left.
  - intros [H | H]; [| now right].
    left. exists c. split; [exact H | apply String.eqb_refl].
Qed.

Lemma list_find_first {A} (p : A -> bool) (l : list A) (x : A) :
  List.find p l = Some x <->
  exists l1 l2, l = l1 ++ x :: l2 /\ p x = true /\
    (forall y, In y l1 -> p y = false).
Proof.
  induction l as [|y l IH]; simpl.
  - split; [discriminate |]. intros (l1 & l2 & H & _). now destruct l1.
  - destruct (p y) eqn:Ey.
    + split.
      * intros [= <-]. exists [], l. repeat split; [exact Ey | intros z []].
      * intros ([|z l1] & l2 & H & Hx & Hl1); simpl in H.
        -- congruence.
        -- injection H as <- _. rewrite (Hl1 y (or_introl eq_refl)) in Ey.
           discriminate.
    + rewrite IH. split.
      * intros (l1 & l2 & -> & Hx & Hl1). exists (y :: l1), l2.
        repeat split; [exact Hx |]. intros z [<- | Hin]; auto.
      * intros ([|z l1] & l2 & H & Hx & Hl1); simpl in H.
        -- injection H as <- _. congruence.
        -- injection H as <- ->. exists l1, l2.
           repeat split; [exact Hx |]. intros w Hin. apply Hl1. now right.
Qed.

Lemma find_class_first (n c : string) (t : Tag) (e : Element) :
  find_class n c t = Some e <->
  first_tag (fun t' => name t' = n /\ classed c t') t e.
Proof.
  unfold find_class, first_tag. rewrite list_find_first. split.
  - intros (l1 & l2 & Hd & He & Hl1). exists l1, l2. split; [exact Hd |].
    apply andb_true_iff in He as [Hn Hc]. split.
    + split; [now apply String.eqb_eq | now apply has_class_iff].
    + intros e' Hin [Hn' Hc']. specialize (Hl1 e' Hin).
      apply String.eqb_eq in Hn'. apply has_class_iff in Hc'.
      now rewrite Hn', Hc' in Hl1.
  - intros (l1 & l2 & Hd & [Hn Hc] & Hl1). exists l1, l2. split; [exact Hd |].
    split.
    + apply andb_true_iff. split; [now apply String.eqb_eq | now apply has_class_iff].
    + intros e' Hin.
      destruct (String.eqb (name (tag e')) n && has_class c (tag e')) eqn:E;
        [| reflexivity].
      apply andb_true_iff in E as [Hn' Hc'].
      exfalso. apply (Hl1 e' Hin). split;
        [now apply String.eqb_eq | now apply has_class_iff].
Qed.

Lemma find_first (n : string) (t : Tag) (e : Element) :
  find n t = Some e <-> first_tag (fun t' => name t' = n) t e.
Proof.
  unfold find, first_tag. rewrite list_find_first. split.
  - intros (l1 & l2 & Hd & He & Hl1). exists l1, l2. split; [exact Hd |].
    split; [now apply String.eqb_eq |].
    intros e' Hin Hn'. specialize (Hl1 e' Hin).
    apply String.eqb_eq in Hn'. congruence.
  - intros (l1 & l2 & Hd & Hn & Hl1). exists l1, l2. split; [exact Hd |].
    split; [now apply String.eqb_eq |].
    intros e' Hin. apply String.eqb_neq. exact (Hl1 e' Hin).
Qed.

(** C6 (as amended).  When the first table of class [infobox] of the page,
    in document order, has a [td] of class [infobox-image], and the first
    such cell holds a link, the first of which has an [href], the locator
    returns that [href] as it stands, and the whole-page scan does not take
    place. *)
Theorem locate_image_first_infobox (page : Tag) (tbl cell a : Element)
    (href : string) :
  first_tag (fun t => name t = "table" /\ classed "infobox" t) page tbl ->
  first_tag (fun t => name t = "td" /\ classed "infobox-image" t) (tag tbl) cell ->
  first_tag (fun t => name t = "a") (tag cell) a ->
  attrs (tag a) !! "href" = Some href ->
  locate_image page = ([], Ok href) /\ ~ In Scan (fst (locate_image page)).
Proof.
  intros Htbl Hcell Ha Hhref.
  apply find_class_first in Htbl. apply find_class_first in Hcell.
  apply find_first in Ha.
  exact (locate_image_infobox page tbl cell a href Htbl Hcell Ha Hhref).
Qed.

Lemma locate_image_first_infobox_witness :
  locate_image page_two_tables = ([], Ok "/wiki/File:X.jpg") /\
  locate_image page_infobox = ([], Ok "/wiki/File:X.jpg").
Proof.
  split.
  - destruct (find_class "table" "infobox" page_two_tables) as [tbl|] eqn:Htbl;
      [| discriminate Htbl].
    destruct (find_class "td" "infobox-image" (tag tbl)) as [cell|] eqn:Hcell;
      [| injection Htbl as <-; discriminate Hcell].
    destruct (find "a" (tag cell)) as [a|] eqn:Ha;
      [| injection Htbl as <-; injection Hcell as <-; discriminate Ha].
    apply (locate_image_first_infobox page_two_tables tbl cell a "/wiki/File:X.jpg").
    + now apply find_class_first.
    + now apply find_class_first.
    + now apply find_first.
    + injection Htbl as <-; injection Hcell as <-; injection Ha as <-. reflexivity.
  - destruct (find_class "table" "infobox" page_infobox) as [tbl|] eqn:Htbl;
      [| discriminate Htbl].
    destruct (find_class "td" "infobox-image" (tag tbl)) as [cell|] eqn:Hcell;
      [| injection Htbl as <-; discriminate Hcell].
    destruct (find "a" (tag cell)) as [a|] eqn:Ha;
      [| injection Htbl as <-; injection Hcell as <-; discriminate Ha].
    apply (locate_image_first_infobox page_infobox tbl cell a "/wiki/File:X.jpg").
    + now apply find_class_first.
    + now apply find_class_first.
    + now apply find_first.
    + injection Htbl as <-; injection Hcell as <-; injection Ha as <-. reflexivity.
Defined.

(** C6 (as stated) fails on a page with two infobox tables of which only
    the second has an image cell: the page holds an infobox table with an
    image cell that links to [/wiki/File:X.jpg], yet the locator scans the
    whole page and returns the link of the icon. *)
Lemma locate_image_second_infobox :
  infobox_image_link page_second_infobox "/wiki/File:X.jpg" /\
  locate_image page_second_infobox = ([Scan], Ok "/wiki/File:Icon.png") /\
  In Scan (fst (locate_image page_second_infobox)) /\
  locate_image page_second_infobox <> ([], Ok "/wiki/File:X.jpg").
Proof.
  split; [| split; [reflexivity | split; [simpl; auto | discriminate]]].
  exists (mkElement page_second_infobox x_table),
         (mkElement x_table x_cell), (mkElement x_cell x_link).
  repeat split; try reflexivity.
  - simpl. auto 10.
  - left. simpl. auto.
  - simpl. auto.
  - left. simpl. auto.
  - simpl. auto.
Qed.

(** The fallback when the infobox has no image cell: the scan of the whole
    page takes place, and the result is the [href] of the parent of the
    first tag, in document order, that [viewable_image] accepts. *)
Lemma locate_image_first_match (page : Tag) (tbl first : Element)
    (rest : list Element) (href : string) :
  find_class "table" "infobox" page = Some tbl ->
  find_class "td" "infobox-image" (tag tbl) = None ->
  find_all viewable_image page = Ok (first :: rest) ->
  attrs (parent first) !! "href" = Some href ->
  locate_image page = ([Scan], Ok href) /\
  exists l1 l2,
    descendants page = l1 ++ first :: l2 /\
    viewable_image (tag first) = Ok true /\
    (forall e, In e l1 -> viewable_image (tag e) = Ok false).
Proof.
  intros Htbl Hcell Hall Hhref. split.
  - rewrite (locate_image_fallback page tbl Htbl Hcell), Hall. simpl.
    now rewrite (tag_getitem_Some _ _ _ Hhref).
  - now apply filter_tags_first with (rest := rest).
Qed.

(** C2 (the code departs from it).  On an article without any infobox
    table the locator does not reach the whole-page scan: calling [find] on
    the [None] that stands for the missing table raises [AttributeError],
    although the page has a qualifying image inside a link. *)
Theorem locate_image_plain_page :
  find_class "table" "infobox" page_plain = None /\
  (exists first rest,
     find_all viewable_image page_plain = Ok (first :: rest) /\
     tag_getitem (parent first) "href" = Ok "/wiki/File:X.jpg") /\
  locate_image page_plain = ([], Raise AttributeError).
Proof.
  split; [reflexivity |]. split; [| reflexivity].
  destruct (find_all viewable_image page_plain) as [[|first rest]|] eqn:E;
    try discriminate E.
  exists first, rest. split; [reflexivity |].
  injection E as <- _. reflexivity.
Qed.

(** C4 (as amended).  When the infobox has no image cell and the scan of
    the whole page finds no qualifying image, the locator ends with the
    [IndexError] of indexing the empty list. *)
Theorem locate_image_no_candidate (page : Tag) (tbl : Element) :
  find_class "table" "infobox" page = Some tbl ->
  find_class "td" "infobox-image" (tag tbl) = None ->
  find_all viewable_image page = Ok [] ->
  locate_image page = ([Scan], Raise IndexError) /\
  fails_with (locate_image page) "IndexError".
Proof.
  intros Htbl Hcell Hall.
  rewrite (locate_image_fallback page tbl Htbl Hcell), Hall. simpl.
  split; [reflexivity |]. exists IndexError. split; reflexivity.
Qed.

Lemma locate_image_no_candidate_witness :
  locate_image page_no_image = ([Scan], Raise IndexError).
Proof.
  destruct (find_class "table" "infobox" page_no_image) as [tbl|] eqn:Htbl;
    [| discriminate Htbl].
  apply (locate_image_no_candidate page_no_image tbl Htbl).
  - injection Htbl as <-. reflexivity.
  - reflexivity.
Defined.

(** C4 (as stated) fails: on a page whose infobox has no image cell and
    that has no qualifying image the exception is not a
    [NoImageFoundError]. *)
Lemma locate_image_not_NoImageFoundError :
  find_all viewable_image page_no_image = Ok [] /\
  ~ fails_with (locate_image page_no_image) "NoImageFoundError".
Proof.
  split; [reflexivity |].
  intros (e & He & Hname). vm_compute in He. injection He as <-.
  discriminate Hname.
Qed.

Lemma locate_image_first_match_witness :
  locate_image page_infobox_no_cell = ([Scan], Ok "/wiki/File:Y.gif").
Proof.
  destruct (find_class "table" "infobox" page_infobox_no_cell) as [tbl|] eqn:Htbl;
    [| discriminate Htbl].
  destruct (find_all viewable_image page_infobox_no_cell) as [[|first rest]|] eqn:Hall;
    try discriminate Hall.
  apply (locate_image_first_match page_infobox_no_cell tbl first rest
           "/wiki/File:Y.gif" Htbl).
  - injection Htbl as <-. reflexivity.
  - exact Hall.
  - injection Hall as <- _. reflexivity.
Defined.

Lemma locate_image_no_infobox_witness :
  locate_image page_plain = ([], Raise AttributeError).
Proof. apply (locate_image_no_infobox page_plain). reflexivity. Defined.

(** The scan calls the function on every tag: one exception ends it, also
    when tags before or after qualify. *)
Lemma filter_tags_Raise (f : Tag -> result bool) (l1 l2 : list Element)
    (e : Element) (x : exn) :
  (forall e', In e' l1 -> exists b, f (tag e') = Ok b) ->
  f (tag e) = Raise x ->
  filter_tags f (l1 ++ e :: l2) = Raise x.
Proof.
  intros Hl1 He. induction l1 as [|e1 l1 IH]; simpl.
  - now rewrite He.
  - destruct (Hl1 e1 (or_introl eq_refl)) as [b ->]. simpl.
    rewrite IH; [reflexivity |]. intros e' Hin. apply Hl1. now right.
Qed.

(** An image element without [src] anywhere on the page makes the fallback
    end with [KeyError], whatever else the page holds. *)
Lemma locate_image_KeyError (page : Tag) (tbl e : Element) (l1 l2 : list Element) :
  find_class "table" "infobox" page = Some tbl ->
  find_class "td" "infobox-image" (tag tbl) = None ->
  descendants page = l1 ++ e :: l2 ->
  (forall e', In e' l1 -> exists b, viewable_image (tag e') = Ok b) ->
  name (tag e) = "img" -> attrs (tag e) !! "src" = None ->
  locate_image page = ([Scan], Raise (KeyError (KStr "src"))).
Proof.
  intros Htbl Hcell Hdesc Hl1 Hname Hsrc.
  rewrite (locate_image_fallback page tbl Htbl Hcell).
  unfold find_all. rewrite Hdesc.
  rewrite (filter_tags_Raise viewable_image l1 l2 e (KeyError (KStr "src")) Hl1);
    [reflexivity |].
  unfold viewable_image, py_and. rewrite Hname. simpl.
  now rewrite (tag_getitem_None _ _ Hsrc).
Qed.

Lemma locate_image_KeyError_witness :
  locate_image page_img_without_src = ([Scan], Raise (KeyError (KStr "src"))).
Proof.
  destruct (find_class "table" "infobox" page_img_without_src) as [tbl|] eqn:Htbl;
    [| discriminate Htbl].
  destruct (descendants page_img_without_src) as [|e0 [|e1 [|e2 [|e3 l]]]] eqn:Hd;
    try discriminate Hd.
  apply (locate_image_KeyError page_img_without_src tbl e3 [e0; e1; e2] l Htbl).
  - injection Htbl as <-. reflexivity.
  - exact Hd.
  - injection Hd as <- <- <- _ _.
    intros e' [<- | [<- | [<- | []]]]; eexists; reflexivity.
  - injection Hd as _ _ _ <- _. reflexivity.
  - injection Hd as _ _ _ <- _. reflexivity.
Defined.

(** ** The Image URL Extractor *)

(** C5.  The source of the image in the full-image container is returned
    with ["https:"] in front when it does not contain ["http"], and as it
    stands when it does. *)
Theorem extract_image_url_scheme (page : Tag) (div a img : Element) (src : string) :
  find_class "div" "fullImageLink" page = Some div ->
  find "a" (tag div) = Some a ->
  find "img" (tag a) = Some img ->
  attrs (tag img) !! "src" = Some src ->
  (~ contains "http" src -> extract_image_url page = ([], Ok ("https:" +:+ src))) /\
  (contains "http" src -> extract_image_url page = ([], Ok src)).
Proof.
  intros Hdiv Ha Himg Hsrc.
  assert (E : extract_image_url page =
              if search (Lit "http") src then ([], Ok src)
              else ([], Ok ("https:" +:+ src))).
  { unfold extract_image_url, method, subscript.
    rewrite Hdiv, bind_lift_Ok, Ha, bind_lift_Ok, Himg.
    rewrite (tag_getitem_Some _ _ _ Hsrc), bind_lift_Ok.
    destruct (search (Lit "http") src); reflexivity. }
  rewrite E. destruct (search (Lit "http") src) eqn:Es.
  - apply search_Lit in Es. split; [contradiction | reflexivity].
  - split; [reflexivity |]. intros Hc. apply search_Lit in Hc. congruence.
Qed.

Lemma extract_image_url_scheme_witness :
  extract_image_url image_page = ([], Ok "https://upload.example/foo.png") /\
  extract_image_url image_page_absolute = ([], Ok "https://upload.example/foo.png").
Proof.
  split.
  - destruct (find_class "div" "fullImageLink" image_page) as [div|] eqn:Hdiv;
      [| discriminate Hdiv].
    destruct (find "a" (tag div)) as [a|] eqn:Ha;
      [| injection Hdiv as <-; discriminate Ha].
    destruct (find "img" (tag a)) as [img|] eqn:Himg;
      [| injection Hdiv as <-; injection Ha as <-; discriminate Himg].
    apply (extract_image_url_scheme image_page div a img
             "//upload.example/foo.png" Hdiv Ha Himg).
    + injection Hdiv as <-; injection Ha as <-; injection Himg as <-. reflexivity.
    + intros Hc. apply search_Lit in Hc. discriminate Hc.
  - destruct (find_class "div" "fullImageLink" image_page_absolute) as [div|] eqn:Hdiv;
      [| discriminate Hdiv].
    destruct (find "a" (tag div)) as [a|] eqn:Ha;
      [| injection Hdiv as <-; discriminate Ha].
    destruct (find "img" (tag a)) as [img|] eqn:Himg;
      [| injection Hdiv as <-; injection Ha as <-; discriminate Himg].
    apply (extract_image_url_scheme image_page_absolute div a img
             "https://upload.example/foo.png" Hdiv Ha Himg).
    + injection Hdiv as <-; injection Ha as <-; injection Himg as <-. reflexivity.
    + exists "", "s://upload.example/foo.png". reflexivity.
Defined.

(** C8 (as amended).  When the full-image container is missing, or the
    link in it, the extractor ends with [AttributeError]; when the link
    holds no image, with [TypeError]. *)
Theorem extract_image_url_missing (page : Tag) :
  (find_class "div" "fullImageLink" page = None ->
   extract_image_url page = ([], Raise AttributeError)) /\
  (forall div,
     find_class "div" "fullImageLink" page = Some div ->
     find "a" (tag div) = None ->
     extract_image_url page = ([], Raise AttributeError)) /\
  (forall div a,
     find_class "div" "fullImageLink" page = Some div ->
     find "a" (tag div) = Some a ->
     find "img" (tag a) = None ->
     extract_image_url page = ([], Raise TypeError)).
Proof.
  unfold extract_image_url. repeat split.
  - now intros ->.
  - intros div -> Ha. simpl. now rewrite Ha.
  - intros div a -> Ha Himg. simpl. rewrite Ha. simpl. now rewrite Himg.
Qed.

Lemma extract_image_url_missing_witness :
  extract_image_url image_page_no_div = ([], Raise AttributeError) /\
  extract_image_url image_page_no_link = ([], Raise AttributeError) /\
  extract_image_url image_page_no_img = ([], Raise TypeError).
Proof.
  split; [| split].
  - apply (proj1 (extract_image_url_missing image_page_no_div)). reflexivity.
  - destruct (find_class "div" "fullImageLink" image_page_no_link) as [div|] eqn:Hdiv;
      [| discriminate Hdiv].
    apply (proj1 (proj2 (extract_image_url_missing image_page_no_link)) div Hdiv).
    injection Hdiv as <-. reflexivity.
  - destruct (find_class "div" "fullImageLink" image_page_no_img) as [div|] eqn:Hdiv;
      [| discriminate Hdiv].
    destruct (find "a" (tag div)) as [a|] eqn:Ha;
      [| injection Hdiv as <-; discriminate Ha].
    apply (proj2 (proj2 (extract_image_url_missing image_page_no_img)) div a Hdiv Ha).
    injection Hdiv as <-; injection Ha as <-. reflexivity.
Defined.

(** C8 (as stated) fails: without the container the exception is not a
    [NoFullImageError]. *)
Lemma extract_image_url_not_NoFullImageError :
  find_class "div" "fullImageLink" image_page_no_div = None /\
  ~ fails_with (extract_image_url image_page_no_div) "NoFullImageError".
Proof.
  split; [reflexivity |].
  intros (e & He & Hname). vm_compute in He. injection He as <-.
  discriminate Hname.
Qed.

(** ** The pipeline *)

Lemma stdout_app (tr tr' : list event) : stdout (tr ++ tr') = stdout tr ++ stdout tr'.
Proof. unfold stdout. now rewrite flat_map_app. Qed.

Lemma silent_lift {A} (r : result A) : silent (lift r).
Proof. reflexivity. Qed.

Lemma silent_ret {A} (a : A) : silent (ret a).
Proof. reflexivity. Qed.

Lemma silent_Scan : silent (emit Scan).
Proof. reflexivity. Qed.

Lemma silent_HttpGet (url : string) (params : list (string * string)) :
  silent (emit (HttpGet url params)).
Proof. reflexivity. Qed.

Lemma silent_bind {A B} (m : io A) (f : A -> io B) :
  silent m -> (forall a, silent (f a)) -> silent (bind m f).
Proof.
  unfold silent. destruct m as [tr [a|e]]; intros Hm Hf.
  - rewrite bind_Ok. simpl in *. now rewrite stdout_app, Hm, Hf.
  - exact Hm.
Qed.

Create HintDb quiet.
#[local] Hint Resolve silent_lift silent_ret silent_Scan silent_HttpGet : quiet.

Lemma silent_locate_image (page : Tag) : silent (locate_image page).
Proof.
  unfold locate_image. apply silent_bind; [auto with quiet |].
  intros [cell|]; [auto with quiet |].
  apply silent_bind; auto with quiet.
Qed.

Lemma silent_extract_image_url (page : Tag) : silent (extract_image_url page).
Proof.
  unfold extract_image_url.
  repeat (apply silent_bind; [auto with quiet | intros ?]).
  destruct (negb _); auto with quiet.
Qed.

Section Pipeline.

Variable get : string -> list (string * string) -> result string.
Variable json : string -> result JSON.
Variable BeautifulSoup : string -> Tag.
Variable str : JSON -> string.

Lemma request_eq (url : string) (params : list (string * string)) :
  request get url params = ([HttpGet url params], get url params).
Proof. unfold request. now rewrite bind_emit. Qed.

Lemma silent_request (url : string) (params : list (string * string)) :
  silent (request get url params).
Proof. now rewrite request_eq. Qed.

Lemma silent_get_wiki_page_id (term : string) :
  silent (get_wiki_page_id get json term).
Proof.
  unfold get_wiki_page_id.
  repeat (apply silent_bind; [auto using silent_request with quiet | intros ?]).
  auto with quiet.
Qed.

Lemma silent_get_wiki_image_url (pid : JSON) :
  silent (get_wiki_image_url get BeautifulSoup str pid).
Proof.
  unfold get_wiki_image_url.
  apply silent_bind; [apply silent_request | intros page].
  apply silent_bind; [apply silent_locate_image | intros ref].
  apply silent_bind; [apply silent_request | intros image_page].
  apply silent_extract_image_url.
Qed.

(** C3.  When the search response lists at least one result, the resolver
    returns the page id of the first entry of the list as the response
    orders it. *)
Theorem get_wiki_page_id_first (term content : string)
    (response query first pid : JSON) (rest : list JSON) :
  get api_url (search_params term) = Ok content ->
  json content = Ok response ->
  getitem response "query" = Ok query ->
  getitem query "search" = Ok (JList (first :: rest)) ->
  getitem first "pageid" = Ok pid ->
  get_wiki_page_id get json term
  = ([HttpGet api_url (search_params term)], Ok pid).
Proof.
  intros Hget Hjson Hquery Hsearch Hpid.
  unfold get_wiki_page_id.
  rewrite request_eq, Hget, bind_Ok, Hjson, bind_lift_Ok, Hquery. simpl.
  rewrite Hsearch. simpl. now rewrite Hpid.
Qed.

(** C7 (as amended).  When the search response lists no result, the
    resolver ends with the [IndexError] of indexing the empty list; [main]
    ends with it too, having sent the search request only and printed
    nothing, and the exit status is 1. *)
Theorem get_wiki_page_id_no_results (argv : list string) (term content : string)
    (response query : JSON) :
  argv !! 1%nat = Some term ->
  get api_url (search_params term) = Ok content ->
  json content = Ok response ->
  getitem response "query" = Ok query ->
  getitem query "search" = Ok (JList []) ->
  get_wiki_page_id get json term
  = ([HttpGet api_url (search_params term)], Raise IndexError) /\
  main get json BeautifulSoup str argv
  = ([HttpGet api_url (search_params term)], Raise IndexError) /\
  run get json BeautifulSoup str argv = ([], 1).
Proof.
  intros Hargv Hget Hjson Hquery Hsearch.
  assert (E : get_wiki_page_id get json term
              = ([HttpGet api_url (search_params term)], Raise IndexError)).
  { unfold get_wiki_page_id.
    rewrite request_eq, Hget, bind_Ok, Hjson, bind_lift_Ok, Hquery. simpl.
    now rewrite Hsearch. }
  assert (E' : main get json BeautifulSoup str argv
               = ([HttpGet api_url (search_params term)], Raise IndexError)).
  { unfold main, list_getitem. now rewrite Hargv, bind_lift_Ok, E. }
  split; [exact E |]. split; [exact E' |].
  unfold run. now rewrite E'.
Qed.

(** How a run of [get_wiki_image_url] that returns came about: both
    requests, the locator and the extractor succeeded, in this order. *)
Lemma get_wiki_image_url_Ok (pid : JSON) (tr : list event) (url : string) :
  get_wiki_image_url get BeautifulSoup str pid = (tr, Ok url) ->
  exists page ref image_page tr2 tr3,
    get (page_url str pid) [] = Ok page /\
    locate_image (BeautifulSoup page) = (tr2, Ok ref) /\
    get (image_page_url ref) [] = Ok image_page /\
    extract_image_url (BeautifulSoup image_page) = (tr3, Ok url) /\
    tr = HttpGet (page_url str pid) [] :: tr2
         ++ HttpGet (image_page_url ref) [] :: tr3.
Proof.
  unfold get_wiki_image_url. rewrite request_eq.
  destruct (get (page_url str pid) []) as [page|e] eqn:Hpage; [| discriminate].
  rewrite bind_Ok.
  destruct (locate_image (BeautifulSoup page)) as [tr2 [ref|e]] eqn:Hloc;
    [| discriminate].
  rewrite bind_Ok, request_eq.
  destruct (get (image_page_url ref) []) as [image_page|e] eqn:Himg;
    [| discriminate].
  rewrite bind_Ok.
  destruct (extract_image_url (BeautifulSoup image_page)) as [tr3 [u|e]] eqn:Hext;
    [| discriminate].
  simpl. intros [= <- <-]. exists page, ref, image_page, tr2, tr3.
  repeat split; auto.
Qed.



(** The three ways [main] can end once the search term is read. *)
Lemma main_cases (argv : list string) (term : string) :
  argv !! 1%nat = Some term ->
  (exists tr e,
     get_wiki_page_id get json term = (tr, Raise e) /\
     main get json BeautifulSoup str argv = (tr, Raise e)) \/
  (exists tr1 pid tr2 e,
     get_wiki_page_id get json term = (tr1, Ok pid) /\
     get_wiki_image_url get BeautifulSoup str pid = (tr2, Raise e) /\
     main get json BeautifulSoup str argv = (tr1 ++ tr2, Raise e)) \/
  (exists tr1 pid tr2 url,
     get_wiki_page_id get json term = (tr1, Ok pid) /\
     get_wiki_image_url get BeautifulSoup str pid = (tr2, Ok url) /\
     main get json BeautifulSoup str argv = (tr1 ++ tr2 ++ [Print url], Ok tt)).
Proof.
  intros Hargv. unfold main, list_getitem. rewrite Hargv, bind_lift_Ok.
  destruct (get_wiki_page_id get json term) as [tr1 [pid|e]] eqn:E1.
  - rewrite bind_Ok.
    destruct (get_wiki_image_url get BeautifulSoup str pid) as [tr2 [url|e]] eqn:E2.
    + right; right. exists tr1, pid, tr2, url. rewrite bind_Ok. auto.
    + right; left. exists tr1, pid, tr2, e. auto.
  - left. exists tr1, e. auto.
Qed.

Lemma main_Raise_silent (argv : list string) (e : exn) :
  snd (main get json BeautifulSoup str argv) = Raise e ->
  stdout (fst (main get json BeautifulSoup str argv)) = [].
Proof.
  destruct (argv !! 1%nat) as [term|] eqn:Hargv.
  - destruct (main_cases argv term Hargv)
      as [(tr & e' & E1 & ->) | [(tr1 & pid & tr2 & e' & E1 & E2 & ->)
                                | (tr1 & pid & tr2 & url & E1 & E2 & ->)]];
      simpl; intros H.
    + pose proof (silent_get_wiki_page_id term) as Hs.
      unfold silent in Hs. now rewrite E1 in Hs.
    + pose proof (silent_get_wiki_page_id term) as Hs1.
      pose proof (silent_get_wiki_image_url pid) as Hs2.
      unfold silent in Hs1, Hs2. rewrite E1 in Hs1. rewrite E2 in Hs2.
      simpl in Hs1, Hs2. now rewrite stdout_app, Hs1, Hs2.
    + discriminate H.
  - unfold main, list_getitem. rewrite Hargv. reflexivity.
Qed.


End Pipeline.

Lemma get_wiki_page_id_first_witness :
  get_wiki_page_id sample_get sample_json "Snoop Dogg"
  = ([HttpGet api_url (search_params "Snoop Dogg")], Ok (JInt 12345)).
Proof.
  eapply (get_wiki_page_id_first sample_get sample_json "Snoop Dogg" "two results");
    reflexivity.
Defined.

Lemma get_wiki_page_id_no_results_witness :
  main sample_get sample_json sample_soup sample_str ["scrape_image.py"; "zzzz"]
  = ([HttpGet api_url (search_params "zzzz")], Raise IndexError) /\
  run sample_get sample_json sample_soup sample_str ["scrape_image.py"; "zzzz"]
  = ([], 1).
Proof.
  eapply (get_wiki_page_id_no_results sample_get sample_json sample_soup sample_str
            ["scrape_image.py"; "zzzz"] "zzzz" "no results");
    reflexivity.
Defined.

(** C7 (as stated) fails: with an empty result list the exception is not a
    [NoResultsError]. *)
Lemma get_wiki_page_id_not_NoResultsError :
  (exists response query,
     sample_json "no results" = Ok response /\
     getitem response "query" = Ok query /\
     getitem query "search" = Ok (JList [])) /\
  ~ fails_with (get_wiki_page_id sample_get sample_json "zzzz") "NoResultsError".
Proof.
  split.
  - eexists _, _. repeat split; reflexivity.
  - intros (e & He & Hname). vm_compute in He. injection He as <-.
    discriminate Hname.
Qed.


(** * Further properties of the script *)

(** ** When the predicate raises, and when it does not *)

Lemma viewable_image_not_img (t : Tag) :
  name t <> "img" -> viewable_image t = Ok false.
Proof.
  intros Hname. unfold viewable_image, py_and.
  apply String.eqb_neq in Hname. now rewrite Hname.
Qed.

Lemma viewable_image_Raise_iff (t : Tag) (e : exn) :
  viewable_image t = Raise e <->
  name t = "img" /\
  ((attrs t !! "src" = None /\ e = KeyError (KStr "src")) \/
   (exists src,
      attrs t !! "src" = Some src /\
      search regex_not_viewable (lower src) = true /\
      search regex_viewable (lower src) = true /\
      attrs t !! "alt" = None /\ e = KeyError (KStr "alt"))).
Proof.
  unfold viewable_image, py_and, tag_getitem. simpl.
  destruct (String.eqb (name t) "img") eqn:En.
  - apply String.eqb_eq in En.
    destruct (attrs t !! "src") as [src|] eqn:Es; simpl.
    + destruct (search regex_not_viewable (lower src)) eqn:E1;
        [destruct (search regex_viewable (lower src)) eqn:E2;
         [destruct (attrs t !! "alt") as [alt|] eqn:Ea |] |]; simpl.
      * split; [discriminate |].
        intros (_ & [(H & _) | (s & _ & _ & _ & H & _)]); discriminate.
      * split.
        -- intros [= <-]. split; [exact En |]. right. exists src. auto.
        -- intros (_ & [(H & _) | (s & _ & _ & _ & _ & ->)]);
             [discriminate | reflexivity].
      * split; [discriminate |].
        intros (_ & [(H & _) | (s & [= <-] & _ & H & _)]);
          [discriminate | congruence].
      * split; [discriminate |].
        intros (_ & [(H & _) | (s & [= <-] & H & _)]);
          [discriminate | congruence].
    + split.
      * intros [= <-]. auto.
      * intros (_ & [(_ & ->) | (s & H & _)]); [reflexivity | discriminate].
  - apply String.eqb_neq in En. split; [discriminate | intros [H _]; contradiction].
Qed.

(** The predicate raises for image elements only, and only [KeyError]: for
    a missing [src], or for a missing [alt] once both tests on [src] have
    passed.  Any other tag is answered [false] whatever its attributes, and
    an image whose [src] fails a test is answered [false] without [alt]
    being read. *)
Theorem viewable_image_outcome (t : Tag) :
  (name t <> "img" -> viewable_image t = Ok false) /\
  (forall e,
     viewable_image t = Raise e <->
     name t = "img" /\
     ((attrs t !! "src" = None /\ e = KeyError (KStr "src")) \/
      (exists src,
         attrs t !! "src" = Some src /\
         search regex_not_viewable (lower src) = true /\
         search regex_viewable (lower src) = true /\
         attrs t !! "alt" = None /\ e = KeyError (KStr "alt")))) /\
  (forall src,
     attrs t !! "src" = Some src ->
     search regex_not_viewable (lower src) && search regex_viewable (lower src)
     = false ->
     viewable_image t = Ok false).
Proof.
  split; [apply viewable_image_not_img |].
  split; [intros e; apply viewable_image_Raise_iff |].
  apply viewable_image_false_src.
Qed.

Lemma viewable_image_outcome_witness :
  viewable_image (element "div" [] []) = Ok false /\
  viewable_image (mkTag "img" (<["src" := "diagram.svg"]> ∅) [] []) = Ok false.
Proof.
  split.
  - apply (proj1 (viewable_image_outcome (element "div" [] []))). discriminate.
  - apply (proj2 (proj2 (viewable_image_outcome
                           (mkTag "img" (<["src" := "diagram.svg"]> ∅) [] [])))
             "diagram.svg"); reflexivity.
Defined.

(** The answer of the predicate depends on the letters of [src] only up to
    their case. *)
Theorem viewable_image_src_case (n : string) (a : gmap string string)
    (c : list string) (cs : list (Tag + string)) (s1 s2 : string) :
  lower s1 = lower s2 ->
  viewable_image (mkTag n (<["src" := s1]> a) c cs)
  = viewable_image (mkTag n (<["src" := s2]> a) c cs).
Proof.
  intros Hl. unfold viewable_image, py_and, tag_getitem. simpl.
  rewrite !lookup_insert_eq, !lookup_insert_ne by discriminate.
  simpl. now rewrite Hl.
Qed.

Lemma viewable_image_src_case_witness :
  viewable_image (img "Snoop.JPG" "foo") = viewable_image (img "snoop.jpg" "foo").
Proof.
  apply (viewable_image_src_case "img" (<["alt" := "foo"]> ∅) [] []
           "Snoop.JPG" "snoop.jpg").
  reflexivity.
Defined.

(** ** The whole-page scan *)

Lemma filter_tags_Ok_iff (f : Tag -> result bool) (l : list Element) :
  (exists found, filter_tags f l = Ok found) <->
  (forall e, In e l -> exists b, f (tag e) = Ok b).
Proof.
  induction l as [|e l IH]; simpl.
  - split; [intros _ e [] | intros _; eauto].
  - split.
    + intros [found H].
      destruct (f (tag e)) as [b|x] eqn:Ef; simpl in H; [| discriminate].
      destruct (filter_tags f l) as [rest|x]; simpl in H; [| discriminate].
      intros e' [<- | Hin]; [eauto |]. apply (proj1 IH); eauto.
    + intros H. destruct (H e (or_introl eq_refl)) as [b ->]. simpl.
      destruct (proj2 IH (fun e' Hin => H e' (or_intror Hin))) as [rest ->].
      simpl. eauto.
Qed.

Lemma filter_tags_filter (f : Tag -> result bool) (l found : list Element) :
  filter_tags f l = Ok found ->
  found = List.filter
            (fun e => match f (tag e) with Ok true => true | _ => false end) l.
Proof.
  revert found; induction l as [|e l IH]; intros found; simpl.
  - now intros [= <-].
  - destruct (f (tag e)) as [b|x]; simpl; [| discriminate].
    destruct (filter_tags f l) as [rest|x]; simpl; [| discriminate].
    intros [= <-]. rewrite (IH rest eq_refl). now destruct b.
Qed.

Lemma viewable_image_Ok_iff (t : Tag) :
  (exists b, viewable_image t = Ok b) <->
  (name t = "img" ->
   exists src,
     attrs t !! "src" = Some src /\
     (search regex_not_viewable (lower src) = true ->
      search regex_viewable (lower src) = true ->
      exists alt, attrs t !! "alt" = Some alt)).
Proof.
  split.
  - intros [b Hb] Hname.
    destruct (attrs t !! "src") as [src|] eqn:Es.
    + exists src. split; [reflexivity |]. intros H1 H2.
      destruct (attrs t !! "alt") as [alt|] eqn:Ea; [eauto |].
      assert (H : viewable_image t = Raise (KeyError (KStr "alt")))
        by (apply viewable_image_Raise_iff; split; [exact Hname |];
            right; exists src; auto).
      congruence.
    + assert (H : viewable_image t = Raise (KeyError (KStr "src")))
        by (apply viewable_image_Raise_iff; auto).
      congruence.
  - intros H. destruct (viewable_image t) as [b|e] eqn:E; [eauto |].
    apply viewable_image_Raise_iff in E as [Hname E].
    destruct (H Hname) as (src & Hsrc & Halt).
    destruct E as [(Hnone & _) | (src' & Hsrc' & H1 & H2 & Hnone & _)].
    + congruence.
    + assert (src' = src) as -> by congruence.
      destruct (Halt H1 H2) as [alt Ha]. congruence.
Qed.

(** The scan [find_all(viewable_image)] of a page returns exactly when
    every image element of the page has a [src] and every image element
    whose [src] passes both tests has an [alt]; what it returns are the
    tags of the page that the predicate accepts, in document order. *)
Theorem find_all_viewable_image (page : Tag) :
  ((exists found, find_all viewable_image page = Ok found) <->
   (forall e, In e (descendants page) -> name (tag e) = "img" ->
      exists src,
        attrs (tag e) !! "src" = Some src /\
        (search regex_not_viewable (lower src) = true ->
         search regex_viewable (lower src) = true ->
         exists alt, attrs (tag e) !! "alt" = Some alt))) /\
  (forall found,
     find_all viewable_image page = Ok found ->
     found = List.filter
               (fun e => match viewable_image (tag e) with
                         | Ok true => true
                         | _ => false
                         end) (descendants page)).
Proof.
  unfold find_all. split; [| apply filter_tags_filter].
  rewrite filter_tags_Ok_iff. split.
  - intros H e Hin. apply viewable_image_Ok_iff. auto.
  - intros H e Hin. apply viewable_image_Ok_iff. auto.
Qed.

Lemma find_all_viewable_image_witness :
  exists found, find_all viewable_image page_infobox_no_cell = Ok found.
Proof.
  apply (proj2 (proj1 (find_all_viewable_image page_infobox_no_cell))).
  intros e Hin Hname. simpl in Hin.
  repeat (destruct Hin as [<- | Hin]); try discriminate Hname; try contradiction;
    (eexists; split; [reflexivity | intros _ _; eexists; reflexivity]).
Defined.

(** ** What the locator returns, and how it fails *)

(** A reference the locator returns is the [href] of the first link of the
    infobox's image cell, found without a scan, or, after one scan when the
    infobox has no image cell, the [href] of the parent of the first tag of
    the page that qualifies as a viewable image.  In both cases the page
    has an infobox table. *)
Theorem locate_image_sound (page : Tag) (tr : list event) (href : string) :
  locate_image page = (tr, Ok href) ->
  exists tbl,
    find_class "table" "infobox" page = Some tbl /\
    ((tr = [] /\
      exists cell a,
        find_class "td" "infobox-image" (tag tbl) = Some cell /\
        find "a" (tag cell) = Some a /\
        attrs (tag a) !! "href" = Some href) \/
     (tr = [Scan] /\
      find_class "td" "infobox-image" (tag tbl) = None /\
      exists first l1 l2,
        descendants page = l1 ++ first :: l2 /\
        viewable_exactly (tag first) /\
        (forall e, In e l1 -> viewable_image (tag e) = Ok false) /\
        attrs (parent first) !! "href" = Some href)).
Proof.
  unfold locate_image, method.
  destruct (find_class "table" "infobox" page) as [tbl|] eqn:Htbl;
    [| discriminate].
  rewrite bind_lift_Ok. intros H. exists tbl. split; [reflexivity |].
  destruct (find_class "td" "infobox-image" (tag tbl)) as [cell|] eqn:Hcell.
  - left. unfold subscript, tag_getitem, lift in H.
    destruct (find "a" (tag cell)) as [a|] eqn:Ha; [| discriminate].
    destruct (attrs (tag a) !! "href") as [h|] eqn:Hh; [| discriminate].
    injection H as <- <-. split; [reflexivity |]. exists cell, a. auto.
  - right. rewrite bind_emit in H. simpl in H.
    destruct (find_all viewable_image page) as [[|first rest]|] eqn:Hall;
      simpl in H; try discriminate.
    unfold tag_getitem in H.
    destruct (attrs (parent first) !! "href") as [h|] eqn:Hh; [| discriminate].
    injection H as <- <-. split; [reflexivity |]. split; [reflexivity |].
    destruct (filter_tags_first _ _ _ _ Hall) as (l1 & l2 & Hd & Hf & Hl1).
    exists first, l1, l2. split; [exact Hd |].
    split; [now apply viewable_image_true_iff |].
    split; [exact Hl1 | exact Hh].
Qed.

Lemma locate_image_sound_witness :
  exists tbl, find_class "table" "infobox" page_infobox_no_cell = Some tbl.
Proof.
  destruct (locate_image_sound page_infobox_no_cell [Scan] "/wiki/File:Y.gif" eq_refl)
    as (tbl & Htbl & _).
  exists tbl. exact Htbl.
Defined.

(** Once the infobox has an image cell the locator never scans the page:
    a cell without link ends it with [TypeError], a link without [href]
    with [KeyError], whatever images the rest of the page holds. *)
Theorem locate_image_cell_errors (page : Tag) (tbl cell : Element) :
  find_class "table" "infobox" page = Some tbl ->
  find_class "td" "infobox-image" (tag tbl) = Some cell ->
  (find "a" (tag cell) = None -> locate_image page = ([], Raise TypeError)) /\
  (forall a,
     find "a" (tag cell) = Some a -> attrs (tag a) !! "href" = None ->
     locate_image page = ([], Raise (KeyError (KStr "href")))).
Proof.
  intros Htbl Hcell. unfold locate_image, method.
  rewrite Htbl, bind_lift_Ok, Hcell. split.
  - now intros ->.
  - intros a -> Hh. unfold subscript. now rewrite (tag_getitem_None _ _ Hh).
Qed.

Lemma locate_image_cell_errors_witness :
  locate_image page_cell_without_link = ([], Raise TypeError) /\
  locate_image page_link_without_href = ([], Raise (KeyError (KStr "href"))).
Proof.
  split.
  - destruct (find_class "table" "infobox" page_cell_without_link) as [tbl|] eqn:Htbl;
      [| discriminate Htbl].
    destruct (find_class "td" "infobox-image" (tag tbl)) as [cell|] eqn:Hcell;
      [| injection Htbl as <-; discriminate Hcell].
    apply (proj1 (locate_image_cell_errors page_cell_without_link tbl cell Htbl Hcell)).
    injection Htbl as <-; injection Hcell as <-. reflexivity.
  - destruct (find_class "table" "infobox" page_link_without_href) as [tbl|] eqn:Htbl;
      [| discriminate Htbl].
    destruct (find_class "td" "infobox-image" (tag tbl)) as [cell|] eqn:Hcell;
      [| injection Htbl as <-; discriminate Hcell].
    destruct (find "a" (tag cell)) as [a|] eqn:Ha;
      [| injection Htbl as <-; injection Hcell as <-; discriminate Ha].
    apply (proj2 (locate_image_cell_errors page_link_without_href tbl cell Htbl Hcell)
             a Ha).
    injection Htbl as <-; injection Hcell as <-; injection Ha as <-. reflexivity.
Defined.

(** In the fallback the first qualifying image decides alone: when its
    parent has no [href] (the image is not wrapped in a link) the locator
    ends with [KeyError], also when a later qualifying image is linked. *)
Theorem locate_image_unlinked (page : Tag) (tbl first : Element)
    (rest : list Element) :
  find_class "table" "infobox" page = Some tbl ->
  find_class "td" "infobox-image" (tag tbl) = None ->
  find_all viewable_image page = Ok (first :: rest) ->
  attrs (parent first) !! "href" = None ->
  locate_image page = ([Scan], Raise (KeyError (KStr "href"))).
Proof.
  intros Htbl Hcell Hall Hh.
  rewrite (locate_image_fallback page tbl Htbl Hcell), Hall. simpl.
  now rewrite (tag_getitem_None _ _ Hh).
Qed.

Lemma locate_image_unlinked_witness :
  locate_image page_unlinked_image = ([Scan], Raise (KeyError (KStr "href"))).
Proof.
  destruct (find_class "table" "infobox" page_unlinked_image) as [tbl|] eqn:Htbl;
    [| discriminate Htbl].
  destruct (find_all viewable_image page_unlinked_image) as [[|first rest]|] eqn:Hall;
    try discriminate Hall.
  apply (locate_image_unlinked page_unlinked_image tbl first rest Htbl).
  - injection Htbl as <-. reflexivity.
  - exact Hall.
  - injection Hall as <- _. reflexivity.
Defined.

(** ** What the extractor returns, and how it fails *)

Lemma extract_image_url_Ok_inv (page : Tag) (tr : list event) (url : string) :
  extract_image_url page = (tr, Ok url) ->
  tr = [] /\
  exists div a img src,
    find_class "div" "fullImageLink" page = Some div /\
    find "a" (tag div) = Some a /\
    find "img" (tag a) = Some img /\
    attrs (tag img) !! "src" = Some src /\
    ((contains "http" src /\ url = src) \/
     (~ contains "http" src /\ url = "https:" +:+ src)).
Proof.
  unfold extract_image_url, method, subscript, tag_getitem.
  destruct (find_class "div" "fullImageLink" page) as [div|] eqn:Hdiv;
    [| discriminate].
  rewrite bind_lift_Ok.
  destruct (find "a" (tag div)) as [a|] eqn:Ha; [| discriminate].
  rewrite bind_lift_Ok.
  destruct (find "img" (tag a)) as [img|] eqn:Himg; [| discriminate].
  destruct (attrs (tag img) !! "src") as [src|] eqn:Hsrc; [| discriminate].
  rewrite bind_lift_Ok.
  destruct (search (Lit "http") src) eqn:Es; simpl; intros [= <- <-];
    (split; [reflexivity |]); exists div, a, img, src;
    repeat (split; [first [reflexivity | assumption] |]).
  - left. split; [now apply search_Lit | reflexivity].
  - right. split; [| reflexivity]. intros Hc. apply search_Lit in Hc. congruence.
Qed.

Lemma extract_image_url_has_http (page : Tag) (tr : list event) (url : string) :
  extract_image_url page = (tr, Ok url) -> contains "http" url.
Proof.
  intros H. apply extract_image_url_Ok_inv in H
    as (_ & div & a & img & src & _ & _ & _ & _ & [[Hc ->] | [_ ->]]).
  - exact Hc.
  - exists "", ("s:" +:+ src). reflexivity.
Qed.

(** A URL the extractor returns contains ["http"], and it is the [src] of
    the first image of the first link of the full-image container, as it
    stands or with ["https:"] in front; the extractor leaves no event. *)
Theorem extract_image_url_sound (page : Tag) (tr : list event) (url : string) :
  extract_image_url page = (tr, Ok url) ->
  tr = [] /\ contains "http" url /\
  exists div a img src,
    find_class "div" "fullImageLink" page = Some div /\
    find "a" (tag div) = Some a /\
    find "img" (tag a) = Some img /\
    attrs (tag img) !! "src" = Some src /\
    ((contains "http" src /\ url = src) \/
     (~ contains "http" src /\ url = "https:" +:+ src)).
Proof.
  intros H. pose proof (extract_image_url_has_http page tr url H) as Hc.
  apply extract_image_url_Ok_inv in H as [-> H]. auto.
Qed.

Lemma extract_image_url_sound_witness :
  contains "http" "https://upload.example/foo.png".
Proof.
  exact (proj1 (proj2 (extract_image_url_sound image_page []
                         "https://upload.example/foo.png" eq_refl))).
Defined.

(** An image element without [src] in the full-image container ends the
    extractor with [KeyError]. *)
Theorem extract_image_url_no_src (page : Tag) (div a img : Element) :
  find_class "div" "fullImageLink" page = Some div ->
  find "a" (tag div) = Some a ->
  find "img" (tag a) = Some img ->
  attrs (tag img) !! "src" = None ->
  extract_image_url page = ([], Raise (KeyError (KStr "src"))).
Proof.
  intros Hdiv Ha Himg Hsrc. unfold extract_image_url, method, subscript.
  rewrite Hdiv, bind_lift_Ok, Ha, bind_lift_Ok, Himg.
  now rewrite (tag_getitem_None _ _ Hsrc).
Qed.

Lemma extract_image_url_no_src_witness :
  extract_image_url image_page_no_src = ([], Raise (KeyError (KStr "src"))).
Proof.
  destruct (find_class "div" "fullImageLink" image_page_no_src) as [div|] eqn:Hdiv;
    [| discriminate Hdiv].
  destruct (find "a" (tag div)) as [a|] eqn:Ha;
    [| injection Hdiv as <-; discriminate Ha].
  destruct (find "img" (tag a)) as [img|] eqn:Himg;
    [| injection Hdiv as <-; injection Ha as <-; discriminate Himg].
  apply (extract_image_url_no_src image_page_no_src div a img Hdiv Ha Himg).
  injection Hdiv as <-; injection Ha as <-; injection Himg as <-. reflexivity.
Defined.

(** ** The resolver on failing requests and unexpected responses *)

Section Resolver.

Variable get : string -> list (string * string) -> result string.
Variable json : string -> result JSON.

Lemma get_wiki_page_id_trace (term : string) :
  fst (get_wiki_page_id get json term) = [HttpGet api_url (search_params term)].
Proof.
  unfold get_wiki_page_id. rewrite request_eq.
  destruct (get api_url (search_params term)) as [content|e]; [| reflexivity].
  rewrite bind_Ok.
  destruct (json content) as [response|e]; [| reflexivity].
  rewrite bind_lift_Ok. reflexivity.
Qed.

(** Whatever the outcome, the resolver sends one request, the search for
    the term as given; an exception of the request or of the decoding of
    its response is the exception the resolver ends with. *)
Theorem get_wiki_page_id_request (term : string) :
  fst (get_wiki_page_id get json term) = [HttpGet api_url (search_params term)] /\
  (forall e,
     get api_url (search_params term) = Raise e ->
     snd (get_wiki_page_id get json term) = Raise e) /\
  (forall content e,
     get api_url (search_params term) = Ok content ->
     json content = Raise e ->
     snd (get_wiki_page_id get json term) = Raise e).
Proof.
  split; [apply get_wiki_page_id_trace |].
  unfold get_wiki_page_id. rewrite request_eq. split.
  - now intros e ->.
  - intros content e -> Hj. now rewrite bind_Ok, Hj.
Qed.

(** A response of an unexpected shape ends the resolver with the exception
    of the subscript that fails: [TypeError] when the response is no
    object, [KeyError] when it lacks ["query"], when the query lacks
    ["search"], or when the first result lacks ["pageid"]. *)
Theorem get_wiki_page_id_malformed (term content : string) (response : JSON) :
  get api_url (search_params term) = Ok content ->
  json content = Ok response ->
  ((forall d, response <> JDict d) ->
   snd (get_wiki_page_id get json term) = Raise TypeError) /\
  (forall d,
     response = JDict d -> d !! "query" = None ->
     snd (get_wiki_page_id get json term) = Raise (KeyError (KStr "query"))) /\
  (forall d q,
     response = JDict d -> d !! "query" = Some (JDict q) -> q !! "search" = None ->
     snd (get_wiki_page_id get json term) = Raise (KeyError (KStr "search"))) /\
  (forall d q f rest,
     response = JDict d -> d !! "query" = Some (JDict q) ->
     q !! "search" = Some (JList (JDict f :: rest)) -> f !! "pageid" = None ->
     snd (get_wiki_page_id get json term) = Raise (KeyError (KStr "pageid"))).
Proof.
  intros Hget Hjson. unfold get_wiki_page_id.
  rewrite request_eq, Hget, bind_Ok, Hjson, bind_lift_Ok. simpl.
  split; [| split; [| split]].
  - intros Hd. destruct response; try reflexivity. now destruct (Hd d).
  - intros d -> Hq. simpl. now rewrite Hq.
  - intros d q -> Hq Hs. simpl. rewrite Hq. simpl. now rewrite Hs.
  - intros d q f rest -> Hq Hs Hp. simpl. rewrite Hq. simpl. rewrite Hs. simpl.
    now rewrite Hp.
Qed.

End Resolver.

Lemma get_wiki_page_id_malformed_witness :
  snd (get_wiki_page_id sample_get sample_json_error "Snoop Dogg")
  = Raise (KeyError (KStr "query")).
Proof.
  eapply (proj1 (proj2 (get_wiki_page_id_malformed sample_get sample_json_error
                          "Snoop Dogg" "two results" _ eq_refl eq_refl)));
    reflexivity.
Defined.

(** ** Whole runs: requests, output and exit status *)

Lemma http_gets_app (tr tr' : list event) :
  http_gets (tr ++ tr') = http_gets tr ++ http_gets tr'.
Proof. unfold http_gets. now rewrite flat_map_app. Qed.

Lemma locate_image_trace (page : Tag) :
  fst (locate_image page) = [] \/ fst (locate_image page) = [Scan].
Proof.
  unfold locate_image, method.
  destruct (find_class "table" "infobox" page) as [tbl|]; [| now left].
  rewrite bind_lift_Ok.
  destruct (find_class "td" "infobox-image" (tag tbl)) as [cell|]; [now left |].
  right. now rewrite bind_emit.
Qed.

Lemma locate_image_offline (page : Tag) :
  http_gets (fst (locate_image page)) = [].
Proof. now destruct (locate_image_trace page) as [-> | ->]. Qed.

Lemma extract_image_url_trace (page : Tag) : fst (extract_image_url page) = [].
Proof.
  unfold extract_image_url, method, subscript.
  destruct (find_class "div" "fullImageLink" page) as [div|]; [| reflexivity].
  rewrite bind_lift_Ok.
  destruct (find "a" (tag div)) as [a|]; [| reflexivity].
  rewrite bind_lift_Ok.
  destruct (find "img" (tag a)) as [img|]; [| reflexivity].
  destruct (tag_getitem (tag img) "src") as [src|e]; [| reflexivity].
  rewrite bind_lift_Ok. now destruct (negb _).
Qed.

Lemma written_nil_iff (out : list string) : written out = "" <-> out = [].
Proof.
  destruct out as [|line out]; simpl; [tauto |].
  split; [| discriminate]. intros H.
  apply append_eq_nil in H as [_ H]. discriminate.
Qed.

Section Runs.

Variable get : string -> list (string * string) -> result string.
Variable json : string -> result JSON.
Variable BeautifulSoup : string -> Tag.
Variable str : JSON -> string.

(** The requests of [get_wiki_image_url]: the article, and the image page
    of the reference the locator returned, when it returned one. *)
Lemma get_wiki_image_url_gets (pid : JSON) :
  (forall e,
     get (page_url str pid) [] = Raise e ->
     http_gets (fst (get_wiki_image_url get BeautifulSoup str pid))
     = [(page_url str pid, [])]) /\
  (forall page,
     get (page_url str pid) [] = Ok page ->
     (forall tr2 e,
        locate_image (BeautifulSoup page) = (tr2, Raise e) ->
        http_gets (fst (get_wiki_image_url get BeautifulSoup str pid))
        = [(page_url str pid, [])]) /\
     (forall tr2 ref,
        locate_image (BeautifulSoup page) = (tr2, Ok ref) ->
        http_gets (fst (get_wiki_image_url get BeautifulSoup str pid))
        = [(page_url str pid, []); (image_page_url ref, [])])).
Proof.
  unfold get_wiki_image_url. rewrite request_eq. split.
  - now intros e ->.
  - intros page ->. rewrite bind_Ok.
    pose proof (locate_image_offline (BeautifulSoup page)) as Hloc. split.
    + intros tr2 e E. rewrite E in *. simpl in *. now rewrite Hloc.
    + intros tr2 ref E. rewrite E in *. simpl in Hloc.
      rewrite bind_Ok, request_eq.
      destruct (get (image_page_url ref) []) as [image_page|e].
      * rewrite bind_Ok.
        pose proof (extract_image_url_trace (BeautifulSoup image_page)) as Hext.
        destruct (extract_image_url (BeautifulSoup image_page)) as [tr3 r].
        simpl in Hext. subst tr3. simpl. now rewrite http_gets_app, Hloc.
      * simpl. now rewrite http_gets_app, Hloc.
Qed.

(** Without a search term on the command line the script ends with
    [IndexError] before any request, prints nothing and exits with 1. *)
Theorem main_no_argument (argv : list string) :
  argv !! 1%nat = None ->
  main get json BeautifulSoup str argv = ([], Raise IndexError) /\
  run get json BeautifulSoup str argv = ([], 1).
Proof.
  intros Hargv.
  assert (E : main get json BeautifulSoup str argv = ([], Raise IndexError))
    by (unfold main, list_getitem; now rewrite Hargv).
  split; [exact E |]. unfold run. now rewrite E.
Qed.

(** The requests of a run with a search term are decided by how far the
    stages get.  The search request, with the parameters of
    [get_wiki_page_id], is always the first.  When the resolver fails it is
    the only one.  When the resolver returns a page id, the second request
    asks for the article of that page id, without parameters, and it is the
    last one when it fails or the locator fails.  When the locator returns a
    reference, the third and last request asks for the image page of that
    reference, without parameters. *)
Theorem main_requests (argv : list string) (term : string) :
  argv !! 1%nat = Some term ->
  (forall tr1 e,
     get_wiki_page_id get json term = (tr1, Raise e) ->
     http_gets (fst (main get json BeautifulSoup str argv))
     = [(api_url, search_params term)]) /\
  (forall tr1 pid,
     get_wiki_page_id get json term = (tr1, Ok pid) ->
     (forall e,
        get (page_url str pid) [] = Raise e ->
        http_gets (fst (main get json BeautifulSoup str argv))
        = [(api_url, search_params term); (page_url str pid, [])]) /\
     (forall page,
        get (page_url str pid) [] = Ok page ->
        (forall tr2 e,
           locate_image (BeautifulSoup page) = (tr2, Raise e) ->
           http_gets (fst (main get json BeautifulSoup str argv))
           = [(api_url, search_params term); (page_url str pid, [])]) /\
        (forall tr2 ref,
           locate_image (BeautifulSoup page) = (tr2, Ok ref) ->
           http_gets (fst (main get json BeautifulSoup str argv))
           = [(api_url, search_params term); (page_url str pid, []);
              (image_page_url ref, [])]))).
Proof.
  intros Hargv. unfold main, list_getitem. rewrite Hargv, bind_lift_Ok.
  pose proof (get_wiki_page_id_trace get json term) as Ht. split.
  - intros tr1 e E. rewrite E in *. simpl in *. now subst tr1.
  - intros tr1 pid E. rewrite E in *. simpl in Ht. subst tr1.
    assert (Hmain :
      http_gets
        (fst (bind ([HttpGet api_url (search_params term)], Ok pid)
                (fun page_id =>
                   bind (get_wiki_image_url get BeautifulSoup str page_id)
                     (fun image_url => emit (Print image_url)))))
      = (api_url, search_params term)
        :: http_gets (fst (get_wiki_image_url get BeautifulSoup str pid))).
    { rewrite bind_Ok.
      destruct (get_wiki_image_url get BeautifulSoup str pid) as [tr2 [url|e]];
        [rewrite bind_Ok |]; simpl; [| reflexivity].
      rewrite http_gets_app. simpl. now rewrite app_nil_r. }
    rewrite Hmain.
    destruct (get_wiki_image_url_gets pid) as [Hfail Hpage]. split.
    + intros e He. now rewrite (Hfail e He).
    + intros page Hp. destruct (Hpage page Hp) as [Hl1 Hl2]. split.
      * intros tr2 e Hl. now rewrite (Hl1 tr2 e Hl).
      * intros tr2 ref Hl. now rewrite (Hl2 tr2 ref Hl).
Qed.

(** A run ends in one of two ways: exit status 1 and nothing written to
    standard output, or exit status 0 after one [print], of a URL that
    contains ["http"]: standard output then holds that URL followed by a
    line feed. *)
Theorem run_output (argv : list string) (out : list string) (status : Z) :
  run get json BeautifulSoup str argv = (out, status) ->
  (status = 1 /\ out = [] /\ written out = "") \/
  (status = 0 /\
   exists url,
     out = [url] /\ written out = url +:+ String LF "" /\ contains "http" url).
Proof.
  unfold run. intros Hrun.
  destruct (main get json BeautifulSoup str argv) as [tr [[]|e]] eqn:Em.
  - right. injection Hrun as <- <-. split; [reflexivity |].
    destruct (argv !! 1%nat) as [term|] eqn:Hargv.
    + destruct (main_cases get json BeautifulSoup str argv term Hargv)
        as [(tr0 & e & E1 & Hm) | [(tr1 & pid & tr2 & e & E1 & E2 & Hm)
                                  | (tr1 & pid & tr2 & url & E1 & E2 & Hm)]];
        rewrite Em in Hm; try discriminate Hm.
      injection Hm as ->. exists url.
      pose proof (silent_get_wiki_page_id get json term) as Hs1.
      pose proof (silent_get_wiki_image_url get BeautifulSoup str pid) as Hs2.
      unfold silent in Hs1, Hs2. rewrite E1 in Hs1. rewrite E2 in Hs2.
      simpl fst in Hs1, Hs2. rewrite !stdout_app, Hs1, Hs2.
      split; [reflexivity |]. split; [reflexivity |].
      destruct (get_wiki_image_url_Ok get BeautifulSoup str pid tr2 url E2)
        as (page & ref & image_page & tr2' & tr3 & _ & _ & _ & Hext & _).
      exact (extract_image_url_has_http _ _ _ Hext).
    + unfold main, list_getitem in Em. rewrite Hargv in Em. discriminate Em.
  - left. injection Hrun as <- <-. split; [reflexivity |].
    pose proof (main_Raise_silent get json BeautifulSoup str argv e) as Hs.
    rewrite Em in Hs. simpl in Hs. now rewrite (Hs eq_refl).
Qed.

End Runs.

Lemma main_no_argument_witness :
  run sample_get sample_json sample_soup sample_str ["scrape_image.py"] = ([], 1).
Proof.
  apply (main_no_argument sample_get sample_json sample_soup sample_str
           ["scrape_image.py"]).
  reflexivity.
Defined.

Lemma main_requests_witness :
  http_gets
    (fst (main sample_get sample_json sample_soup sample_str
            ["scrape_image.py"; "Snoop Dogg"]))
  = [("https://en.wikipedia.org/w/api.php",
      [("action", "query"); ("list", "search");
       ("srsearch", "Snoop Dogg"); ("format", "json")]);
     ("https://en.wikipedia.org/?curid=12345", []);
     ("https://en.wikipedia.org//wiki/File:X.jpg", [])] /\
  http_gets
    (fst (main sample_get sample_json sample_soup sample_str
            ["scrape_image.py"; "zzzz"]))
  = [("https://en.wikipedia.org/w/api.php",
      [("action", "query"); ("list", "search");
       ("srsearch", "zzzz"); ("format", "json")])].
Proof.
  split.
  - destruct (main_requests sample_get sample_json sample_soup sample_str
                ["scrape_image.py"; "Snoop Dogg"] "Snoop Dogg" eq_refl)
      as [_ Hok].
    destruct (Hok [HttpGet api_url (search_params "Snoop Dogg")] (JInt 12345)
                eq_refl) as [_ Hpage].
    destruct (Hpage "article" eq_refl) as [_ Href].
    exact (Href [] "/wiki/File:X.jpg" eq_refl).
  - destruct (main_requests sample_get sample_json sample_soup sample_str
                ["scrape_image.py"; "zzzz"] "zzzz" eq_refl)
      as [Hfail _].
    exact (Hfail [HttpGet api_url (search_params "zzzz")] IndexError eq_refl).
Defined.

Lemma run_output_witness :
  exists url,
    ["https://upload.example/foo.png"] = [url] /\
    written ["https://upload.example/foo.png"] = url +:+ String LF "" /\
    contains "http" url.
Proof.
  destruct (run_output sample_get sample_json sample_soup sample_str
              ["scrape_image.py"; "Snoop Dogg"]
              ["https://upload.example/foo.png"] 0 eq_refl)
    as [[H _] | [_ H]]; [discriminate H | exact H].
Defined.
